(** * Text image generator: font catalog, layout, preview scheduling, export

    A shallow embedding of [src/text_image_generator.py] (class
    [TextImageGenerator]) and the properties of its four core subsystems.

    Modelling conventions.
    - A Python [str] is a Rocq [string]: the UTF-8 bytes of the text.  Substring
      tests, prefix and suffix tests and lexicographic comparison agree on code
      points and on UTF-8 bytes; [str.lower] is modelled on the ASCII letters,
      which is all the keywords of the program ("left", "right", "top",
      "bottom", ".ttf", ".otf") can match.
    - Python [int] is [Z]; [//] is [Z.div] (both round towards minus infinity).
      Python [float] is IEEE 754 binary64, as [SpecFloat] specifies it.
    - [dict] is stdpp's [gmap]; only lookups, membership and size are observed.
    - [os.path] is [posixpath].
    - Pillow is a black box: a font handle is an abstract type, [ImageFont.truetype]
      may fail, [ImageDraw.textbbox] measures, and an image is the canvas it was
      created with together with the [draw.text] calls made on it.
    - Tk variables are fields of the application state; work handed to the
      executor or to [root.after] is an explicit list of pending jobs.  A
      callback given to [root.after] runs later, from the event loop.
    - File writes may raise; what was written, logged and reported to the user
      is an explicit trace of effects. *)

From Stdlib Require Import ZArith Ascii String List Lia Bool SpecFloat.
From stdpp Require Import base gmap strings list sorting.

Local Open Scope string_scope.

(** ** Python string operations *)

Module PyStr.

(** [s[n:]] *)
Fixpoint drop (n : nat) (s : string) : string :=
  match n, s with
  | O, _ => s
  | S _, "" => ""
  | S n', String _ s' => drop n' s'
  end.

(** [s[:n]] *)
Fixpoint take (n : nat) (s : string) : string :=
  match n, s with
  | O, _ => ""
  | S _, "" => ""
  | S n', String a s' => String a (take n' s')
  end.

(** [s.startswith(p)] *)
Fixpoint startswith (s p : string) : bool :=
  match p, s with
  | "", _ => true
  | String _ _, "" => false
  | String b p', String a s' => Ascii.eqb a b && startswith s' p'
  end.

(** [s.endswith(suf)] *)
Definition endswith (s suf : string) : bool :=
  String.eqb (drop (String.length s - String.length suf) s) suf.

(** [s.endswith((suf1, suf2, ...))] *)
Definition endswith_any (s : string) (sufs : list string) : bool :=
  existsb (endswith s) sufs.

(** [sub in s] *)
Fixpoint contains (sub s : string) : bool :=
  startswith s sub ||
  match s with
  | "" => false
  | String _ s' => contains sub s'
  end.

(** [s.split(sep, 1)] when [sep] occurs in [s]: the text before and after the
    first occurrence; [None] when [sep] does not occur (Python then returns the
    one-element list [[s]]). *)
Fixpoint split_first (sep s : string) : option (string * string) :=
  if startswith s sep then Some ("", drop (String.length sep) s)
  else match s with
       | "" => None
       | String a s' =>
           match split_first sep s' with
           | Some (p, q) => Some (String a p, q)
           | None => None
           end
       end.

(** [s.replace(old, new)] for a non-empty [old]: occurrences are replaced from
    left to right and do not overlap.  [skip] counts the characters of the
    occurrence just replaced that are still to be passed over. *)
Fixpoint replace_go (old new : string) (skip : nat) (s : string) : string :=
  match s with
  | "" => ""
  | String a s' =>
      match skip with
      | S k => replace_go old new k s'
      | O =>
          if startswith s old
          then new +:+ replace_go old new (String.length old - 1) s'
          else String a (replace_go old new 0 s')
      end
  end.

Definition replace (old new s : string) : string := replace_go old new 0 s.

Definition lower_ascii (c : ascii) : ascii :=
  let n := nat_of_ascii c in
  if (65 <=? n)%nat && (n <=? 90)%nat then ascii_of_nat (n + 32) else c.

(** [s.lower()] *)
Fixpoint lower (s : string) : string :=
  match s with
  | "" => ""
  | String a s' => String (lower_ascii a) (lower s')
  end.

(** [s.rfind(c)] for a one-character [c]; [None] stands for Python's [-1]. *)
Fixpoint rfind (c : ascii) (s : string) : option nat :=
  match s with
  | "" => None
  | String a s' =>
      match rfind c s' with
      | Some i => Some (S i)
      | None => if Ascii.eqb a c then Some O else None
      end
  end.

(** [s.rstrip(c)] for a one-character [c]. *)
Fixpoint rstrip (c : ascii) (s : string) : string :=
  match s with
  | "" => ""
  | String a s' =>
      match rstrip c s' with
      | "" => if Ascii.eqb a c then "" else String a ""
      | r => String a r
      end
  end.

(** [s == c * len(s)] *)
Fixpoint all_char (c : ascii) (s : string) : bool :=
  match s with
  | "" => true
  | String a s' => Ascii.eqb a c && all_char c s'
  end.

(** The string with [f] applied to each character. *)
Fixpoint map_chars (f : ascii -> ascii) (s : string) : string :=
  match s with
  | "" => ""
  | String a s' => String (f a) (map_chars f s')
  end.

(** [str(i)] for the digits of [range(10)] and beyond. *)
Definition digit_char (d : nat) : ascii := ascii_of_nat (48 + d).

Fixpoint str_nat_go (fuel n : nat) (acc : string) : string :=
  match fuel with
  | O => acc
  | S fuel' =>
      let acc' := String (digit_char (n mod 10)) acc in
      if (n <? 10)%nat then acc' else str_nat_go fuel' (n / 10) acc'
  end.

Definition str_nat (n : nat) : string := str_nat_go (S n) n "".

End PyStr.

(** ** [os.path] (posixpath) *)

Module PosixPath.
Import PyStr.

(** [i = p.rfind('/') + 1] *)
Definition after_last_sep (p : string) : nat :=
  match rfind "/" p with
  | Some i => S i
  | None => O
  end.

Definition basename (p : string) : string := drop (after_last_sep p) p.

Definition dirname (p : string) : string :=
  let head := take (after_last_sep p) p in
  if negb (String.eqb head "") && negb (all_char "/" head)
  then rstrip "/" head
  else head.

(** [os.path.join(a, b)] *)
Definition join (a b : string) : string :=
  if startswith b "/" then b
  else if String.eqb a "" || endswith a "/" then a +:+ b
  else a +:+ "/" +:+ b.

Definition rfind_index (c : ascii) (p : string) : Z :=
  match rfind c p with
  | Some i => Z.of_nat i
  | None => (-1)%Z
  end.

(** The [while filenameIndex < dotIndex] loop of [genericpath._splitext]:
    [true] when it returns from inside the loop, at a character that is not a
    dot. *)
Fixpoint splitext_scan (fuel : nat) (p : string) (filenameIndex dotIndex : Z) : bool :=
  match fuel with
  | O => false
  | S fuel' =>
      if (filenameIndex <? dotIndex)%Z
      then if negb (String.eqb (take 1 (drop (Z.to_nat filenameIndex) p)) ".")
           then true
           else splitext_scan fuel' p (filenameIndex + 1)%Z dotIndex
      else false
  end.

Definition splitext (p : string) : string * string :=
  let sepIndex := rfind_index "/" p in
  let dotIndex := rfind_index "." p in
  if (sepIndex <? dotIndex)%Z
     && splitext_scan (Z.to_nat (dotIndex - sepIndex)) p (sepIndex + 1)%Z dotIndex
  then (take (Z.to_nat dotIndex) p, drop (Z.to_nat dotIndex) p)
  else (p, "").

End PosixPath.

(** ** Font catalog: scan, cache file *)

Module FontCatalog.
Import PyStr PosixPath.

Definition style_suffixes : list string :=
  ["-Regular"; "-Bold"; "Regular"; "Bold"; "Italic"; "-Italic"].

(** [font_name[:-n]]: for [n = 0] Python's [-0] is [0] and the slice is empty. *)
Definition drop_last (n : nat) (font_name : string) : string :=
  if (n =? 0)%nat then "" else take (String.length font_name - n) font_name.

(** The [for suffix in [...]: if font_name.endswith(suffix): ...; break] loop. *)
Fixpoint strip_first_suffix (suffixes : list string) (font_name : string) : string :=
  match suffixes with
  | [] => font_name
  | suffix :: rest =>
      if endswith font_name suffix
      then drop_last (String.length suffix) font_name
      else strip_first_suffix rest font_name
  end.

Definition clean_font_name (font_name : string) : string :=
  strip_first_suffix style_suffixes font_name.

Definition is_font_file (file : string) : bool :=
  endswith_any (lower file) [".ttf"; ".otf"].

(** The cleaned name a font file is catalogued under. *)
Definition cleaned_name (file : string) : string :=
  clean_font_name (fst (splitext file)).

(** The accumulators of the scan: [temp_paths] and [verified_fonts]. *)
Definition scan_acc : Type := gmap string string * list string.

(** Body of [for file in files]. *)
Definition scan_file (root file : string) (acc : scan_acc) : scan_acc :=
  let '(temp_paths, verified_fonts) := acc in
  if is_font_file file then
    let font_name := cleaned_name file in
    if negb (String.eqb font_name "") && negb (bool_decide (is_Some (temp_paths !! font_name)))
    then (<[font_name := join root file]> temp_paths, (verified_fonts ++ [font_name])%list)
    else acc
  else acc.

(** Body of [for root, _, files in os.walk(font_dir)]. *)
Definition scan_root (acc : scan_acc) (entry : string * list string) : scan_acc :=
  foldl (fun a file => scan_file (fst entry) file a) acc (snd entry).

(** [walk font_dir] is [None] when [font_dir] does not exist, and otherwise the
    [(root, files)] pairs that [os.walk] yields, in its order. *)
Definition scan_dir (walk : string -> option (list (string * list string)))
    (acc : scan_acc) (font_dir : string) : scan_acc :=
  match walk font_dir with
  | None => acc
  | Some entries => foldl scan_root acc entries
  end.

(** [sorted(list(set(verified_fonts)))] *)
Definition sorted_set (names : list string) : list string :=
  merge_sort String.le (remove_dups names).

(** Step 2 of [_scan_fonts_thread]: the new [(available_fonts, font_paths)]. *)
Definition scan (walk : string -> option (list (string * list string)))
    (font_dirs : list string) : list string * gmap string string :=
  let '(temp_paths, verified_fonts) := foldl (scan_dir walk) (∅, []) font_dirs in
  (sorted_set verified_fonts, temp_paths).

(** The font files in the order the scan visits them, with their roots. *)
Definition visited_fonts (walk : string -> option (list (string * list string)))
    (font_dirs : list string) : list (string * string) :=
  filter (fun rf => is_font_file (snd rf) = true)
    (flat_map (fun entry => map (fun file => (fst entry, file)) (snd entry))
       (flat_map (fun d => match walk d with Some es => es | None => [] end) font_dirs)).

(** A JSON document, as [json.dump] writes it and [json.load] reads it. *)
#[local] Set Warnings "-register-all".
Inductive json : Type :=
  | JNull
  | JBool (b : bool)
  | JNum (z : Z)
  | JStr (s : string)
  | JArr (items : list json)
  | JObj (members : list (string * json)).

(** [json.dump({"names": available_fonts, "paths": font_paths}, f)] *)
Definition dump_catalog (names : list string) (paths : gmap string string) : json :=
  JObj [("names", JArr (map JStr names));
        ("paths", JObj (map (fun kv => (fst kv, JStr (snd kv))) (map_to_list paths)))].

(** [data[key]] on a decoded object: a later member with the same key replaces
    an earlier one. *)
Definition obj_get (key : string) (members : list (string * json)) : option json :=
  foldl (fun found kv => if String.eqb (fst kv) key then Some (snd kv) else found)
    None members.

Definition as_str (j : json) : option string :=
  match j with
  | JStr s => Some s
  | _ => None
  end.

Definition as_names (j : json) : option (list string) :=
  match j with
  | JArr items => mapM as_str items
  | _ => None
  end.

Definition as_paths (j : json) : option (gmap string string) :=
  match j with
  | JObj members =>
      foldl (fun acc kv =>
               match acc, as_str (snd kv) with
               | Some m, Some v => Some (<[fst kv := v]> m)
               | _, _ => None
               end)
        (Some ∅) members
  | _ => None
  end.

(** The cache file when the scan thread starts. *)
Inductive cache_file : Type :=
  | Absent                 (* [os.path.exists(cache_file)] is false *)
  | Unreadable             (* [open] or [json.load] raises *)
  | Document (j : json).

(** What the thread leaves in [available_fonts] and [font_paths]: a list of
    names with a name-to-path mapping, or, from a cache file, two decoded
    values of other shapes, kept as they are. *)
Inductive stored : Type :=
  | Catalog (catalog : list string * gmap string string)
  | Untyped (names paths : json).

Inductive load_result : Type :=
  | CacheHit (names : list string) (paths : gmap string string)
  | CacheMiss              (* no file, or an exception: rescan *)
  | CacheUntyped (names paths : json).
                           (* both keys present and [len(names)] defined, but
                              not a list of strings and a dict of strings *)

(** [len(x)] on a decoded value is defined for strings, lists and dicts, and
    raises [TypeError] for [None], booleans and numbers. *)
Definition has_len (j : json) : bool :=
  match j with
  | JStr _ | JArr _ | JObj _ => true
  | JNull | JBool _ | JNum _ => false
  end.

(** Step 1 of [_scan_fonts_thread]: [data["names"]] and [data["paths"]] are
    stored whatever they are, and the [len] in the log line that follows still
    belongs to the [try]. *)
Definition load (f : cache_file) : load_result :=
  match f with
  | Absent => CacheMiss
  | Unreadable => CacheMiss
  | Document (JObj members) =>
      match obj_get "names" members, obj_get "paths" members with
      | Some jn, Some jp =>
          match as_names jn, as_paths jp with
          | Some names, Some paths => CacheHit names paths
          | _, _ => if has_len jn then CacheUntyped jn jp else CacheMiss
          end
      | _, _ => CacheMiss
      end
  | Document (JArr _) => CacheMiss     (* list indices must be integers *)
  | Document (JStr _) => CacheMiss
  | Document _ => CacheMiss            (* not subscriptable *)
  end.

(** How step 3 ends: [open(cache_file, "w")] may raise, which leaves the file
    as it was; once the file is open it has been truncated, so an exception
    while [json.dump] writes leaves a file that holds at most a beginning of
    the document, which [json.load] rejects. *)
Inductive save_outcome : Type :=
  | Saved
  | OpenRaises
  | DumpRaises.

(** Step 3 of [_scan_fonts_thread]; an exception is logged. *)
Definition save (outcome : save_outcome) (names : list string)
    (paths : gmap string string) (f : cache_file) : cache_file :=
  match outcome with
  | Saved => Document (dump_catalog names paths)
  | OpenRaises => f
  | DumpRaises => Unreadable
  end.

(** [_scan_fonts_thread]: what it stores in the application, and the cache
    file afterwards. *)
Definition _scan_fonts_thread (walk : string -> option (list (string * list string)))
    (font_dirs : list string) (outcome : save_outcome) (f : cache_file)
    : stored * cache_file :=
  match load f with
  | CacheHit names paths => (Catalog (names, paths), f)
  | CacheUntyped names paths => (Untyped names paths, f)
  | CacheMiss =>
      let '(names, paths) := scan walk font_dirs in
      (Catalog (names, paths), save outcome names paths f)
  end.

End FontCatalog.

(** ** Application state *)

Definition rgba : Type := Z * Z * Z * Z.

Record App {Font : Type} : Type := mkApp {
  current_size : Z;
  text_input : string;                  (* [text_input.get("1.0", "end-1c")] *)
  text_align_var : string;
  text_position_var : string;
  padding_var : Z;
  line_spacing_var : Z;
  font_size_var : Z;
  font_family_var : string;
  outline_color_rgb : rgba;
  text_color_rgb : rgba;
  outline_enabled : bool;
  outline_width_var : Z;
  mask_layer_enabled : bool;
  vmat_enabled : bool;
  shader_var : string;
  font_paths : gmap string string;
  available_fonts : list string;
  _font_obj_cache : gmap (string * Z) Font;
  preview_req_id : Z
}.
Arguments App : clear implicits.
Arguments mkApp {Font}.

(** The values [__init__] gives these fields. *)
Definition initial_app {Font : Type} : App Font :=
  mkApp 512 "SAMPLE TEXT" "Center" "Center" 20 4 50 "calibri"
    (0, 0, 0, 255)%Z (255, 255, 255, 255)%Z false 4 false false
    "csgo_static_overlay.vfx" ∅ [] ∅ 0.

Definition set_font_obj_cache {Font} (c : gmap (string * Z) Font) (st : App Font) : App Font :=
  mkApp (current_size st) (text_input st) (text_align_var st) (text_position_var st)
    (padding_var st) (line_spacing_var st) (font_size_var st) (font_family_var st)
    (outline_color_rgb st) (text_color_rgb st) (outline_enabled st) (outline_width_var st)
    (mask_layer_enabled st) (vmat_enabled st) (shader_var st)
    (font_paths st) (available_fonts st) c (preview_req_id st).

Definition set_catalog {Font} (names : list string) (paths : gmap string string)
    (st : App Font) : App Font :=
  mkApp (current_size st) (text_input st) (text_align_var st) (text_position_var st)
    (padding_var st) (line_spacing_var st) (font_size_var st) (font_family_var st)
    (outline_color_rgb st) (text_color_rgb st) (outline_enabled st) (outline_width_var st)
    (mask_layer_enabled st) (vmat_enabled st) (shader_var st)
    paths names (_font_obj_cache st) (preview_req_id st).

Definition set_preview_req_id {Font} (n : Z) (st : App Font) : App Font :=
  mkApp (current_size st) (text_input st) (text_align_var st) (text_position_var st)
    (padding_var st) (line_spacing_var st) (font_size_var st) (font_family_var st)
    (outline_color_rgb st) (text_color_rgb st) (outline_enabled st) (outline_width_var st)
    (mask_layer_enabled st) (vmat_enabled st) (shader_var st)
    (font_paths st) (available_fonts st) (_font_obj_cache st) n.

Definition set_text_input {Font} (t : string) (st : App Font) : App Font :=
  mkApp (current_size st) t (text_align_var st) (text_position_var st)
    (padding_var st) (line_spacing_var st) (font_size_var st) (font_family_var st)
    (outline_color_rgb st) (text_color_rgb st) (outline_enabled st) (outline_width_var st)
    (mask_layer_enabled st) (vmat_enabled st) (shader_var st)
    (font_paths st) (available_fonts st) (_font_obj_cache st) (preview_req_id st).

(** The scan thread stores the catalog it loaded or built. *)
Definition finish_font_scan {Font} (result : option (list string * gmap string string))
    (st : App Font) : App Font :=
  match result with
  | Some (names, paths) => set_catalog names paths st
  | None => st
  end.

(** The first assignments of [rescan_fonts_action]; the scan thread it starts
    stores the new catalog later. *)
Definition rescan_fonts_action {Font} (st : App Font) : App Font :=
  set_catalog [] ∅ st.

(** ** Font object cache *)

Module FontObjectCache.
Section WithPillow.
Context {Font : Type}.
(** [ImageFont.truetype(path, size)]; [None] when it raises. *)
Variable truetype : string -> Z -> option Font.
(** [ImageFont.load_default()] *)
Variable load_default : Font.

Definition get_font_object (size : Z) (st : App Font) : Font * App Font :=
  let font_name := font_family_var st in
  let cache_key := (font_name, size) in
  match _font_obj_cache st !! cache_key with
  | Some cached => (cached, st)
  | None =>
      match font_paths st !! font_name with
      | Some path =>
          match truetype path size with
          | Some font =>
              let cache :=
                if (50 <? base.size (_font_obj_cache st))%nat then ∅
                else _font_obj_cache st in
              (font, set_font_obj_cache (<[cache_key := font]> cache) st)
          | None => (load_default, st)
          end
      | None => (load_default, st)
      end
  end.
End WithPillow.
End FontObjectCache.

(** ** Layout engine *)

Module LayoutEngine.
Import PyStr.
Local Open Scope Z_scope.

Inductive mode : Type := RGBA | L.

(** A colour argument of Pillow: a 4-tuple for mode "RGBA", an integer for mode "L". *)
Inductive ink : Type :=
  | InkRGBA (c : rgba)
  | InkL (v : Z).

Section WithPillow.
Context {Font : Type}.
Variable truetype : string -> Z -> option Font.
Variable load_default : Font.
(** [draw.textbbox((0, 0), text, font=.., align=.., spacing=..)] *)
Variable textbbox : Font -> string -> string -> Z -> Z * Z * Z * Z.

(** One [draw.text(...)] call with its arguments. *)
Record draw_text : Type := mkDrawText {
  dt_xy : Z * Z;
  dt_text : string;
  dt_font : Font;
  dt_fill : ink;
  dt_stroke_width : Z;            (* Pillow's default: 0 *)
  dt_stroke_fill : option ink;    (* Pillow's default: None *)
  dt_align : string;
  dt_spacing : Z
}.

(** [Image.new(mode, size, background)] and the text drawn on it since. *)
Record image : Type := mkImage {
  im_mode : mode;
  im_size : Z * Z;
  im_background : ink;
  im_draws : list draw_text
}.

Definition create_text_image_pil (text : string) (size font_size : Z)
    (font_obj : option Font) (alignment position : string) (padding line_spacing : Z)
    (st : App Font) : image * App Font :=
  let '(font_obj, st) :=
    match font_obj with
    | None => FontObjectCache.get_font_object truetype load_default font_size st
    | Some f => (f, st)
    end in
  let align_lower := lower alignment in
  let '(left_, top_, right_, bottom_) := textbbox font_obj text align_lower line_spacing in
  let w := right_ - left_ in
  let h := bottom_ - top_ in
  let pos := lower position in
  let x :=
    if contains "left" pos then padding - left_
    else if contains "right" pos then size - w - left_ - padding
    else (size - w) / 2 - left_ in
  let y :=
    if contains "top" pos then padding - top_
    else if contains "bottom" pos then size - h - top_ - padding
    else (size - h) / 2 - top_ in
  let call :=
    if outline_enabled st then
      let o_width := outline_width_var st in
      mkDrawText (x, y) text font_obj (InkRGBA (text_color_rgb st)) o_width
        (Some (InkRGBA (outline_color_rgb st))) align_lower line_spacing
    else
      mkDrawText (x, y) text font_obj (InkRGBA (text_color_rgb st)) 0 None
        align_lower line_spacing in
  (mkImage RGBA (size, size) (InkRGBA (0, 0, 0, 0)) [call], st).

Definition create_mask_image (text : string) (size : Z) (font_obj : Font)
    (alignment position : string) (padding line_spacing : Z)
    (st : App Font) : image :=
  let align_lower := lower alignment in
  let '(left_, top_, right_, bottom_) := textbbox font_obj text align_lower line_spacing in
  let w := right_ - left_ in
  let h := bottom_ - top_ in
  let pos := lower position in
  let x :=
    if contains "left" pos then padding - left_
    else if contains "right" pos then size - w - left_ - padding
    else (size - w) / 2 - left_ in
  let y :=
    if contains "top" pos then padding - top_
    else if contains "bottom" pos then size - h - top_ - padding
    else (size - h) / 2 - top_ in
  let stroke_w := if outline_enabled st then outline_width_var st else 0 in
  mkImage L (size, size) (InkL 0)
    [mkDrawText (x, y) text font_obj (InkL 255) stroke_w (Some (InkL 255))
       align_lower line_spacing].

(** Where an image's text was drawn. *)
Definition draw_origin (img : image) : option (Z * Z) :=
  match im_draws img with
  | [call] => Some (dt_xy call)
  | _ => None
  end.

(** The text an image's layout was measured and drawn with. *)
Definition drawn_text (img : image) : option string :=
  match im_draws img with
  | [call] => Some (dt_text call)
  | _ => None
  end.
End WithPillow.

Arguments draw_text : clear implicits.
Arguments image : clear implicits.
Arguments mkDrawText {Font}.
Arguments mkImage {Font}.

End LayoutEngine.

(** ** The checkerboard behind the preview *)

Module Checkerboard.
Local Open Scope Z_scope.

(** [range(start, stop, step)]: [None] for the [ValueError] of a zero step. *)
Fixpoint range_up (fuel : nat) (start stop step : Z) : list Z :=
  match fuel with
  | O => []
  | S fuel' =>
      if start <? stop then start :: range_up fuel' (start + step) stop step else []
  end.

Fixpoint range_down (fuel : nat) (start stop step : Z) : list Z :=
  match fuel with
  | O => []
  | S fuel' =>
      if stop <? start then start :: range_down fuel' (start + step) stop step else []
  end.

Definition range (start stop step : Z) : option (list Z) :=
  if step =? 0 then None
  else if 0 <? step then Some (range_up (Z.to_nat (stop - start)) start stop step)
  else Some (range_down (Z.to_nat (start - stop)) start stop step).

(** An "RGB" image filled with "#2b2b2b" and the squares drawn on it with
    "#383838", each as Pillow's [[x0, y0, x1, y1]]. *)
Record board : Type := mkBoard {
  board_size : Z;
  rectangles : list (Z * Z * Z * Z)
}.

(** The two nested loops over the cells. *)
Definition draw_cells (cells : list Z) (square_size : Z) : list (Z * Z * Z * Z) :=
  flat_map (fun i =>
    flat_map (fun j =>
      if (i / square_size + j / square_size) mod 2 =? 0
      then [(i, j, i + square_size, j + square_size)]
      else []) cells) cells.

(** [None] when [Image.new] or [range] raises. *)
Definition get_cached_checkerboard (size square_size : Z) (cache : gmap Z board)
    : option (board * gmap Z board) :=
  match cache !! size with
  | Some img => Some (img, cache)
  | None =>
      if size <? 0 then None
      else match range 0 size square_size with
           | None => None
           | Some cells =>
               let img := mkBoard size (draw_cells cells square_size) in
               Some (img, <[size := img]> cache)
           end
  end.

End Checkerboard.

(** ** Python floats *)

Module PyFloat.
Local Open Scope Z_scope.

Definition prec : Z := 53.
Definition emax : Z := 1024.

(** An operation whose result is an infinity or not a number stands for the
    Python operation that raises there. *)
Definition finite (x : spec_float) : option spec_float :=
  match x with
  | S754_infinity _ | S754_nan => None
  | _ => Some x
  end.

(** An integer as an unrounded binary number. *)
Definition exact (z : Z) : spec_float :=
  match z with
  | Z0 => S754_zero false
  | Zpos m => S754_finite false m 0
  | Zneg m => S754_finite true m 0
  end.

(** The conversion of an [int] operand: the nearest float, ties to even;
    [None] for the [OverflowError] of an integer out of range. *)
Definition of_int (z : Z) : option spec_float :=
  finite (binary_normalize prec emax z 0 false).

(** [a / b] on two [int]s: the quotient of the integers, rounded once; [None]
    for [ZeroDivisionError] and [OverflowError]. *)
Definition true_divide (a b : Z) : option spec_float :=
  if b =? 0 then None else finite (SFdiv prec emax (exact a) (exact b)).

(** [z * x] for an [int] and a [float]. *)
Definition int_mul (z : Z) (x : spec_float) : option spec_float :=
  match of_int z with
  | Some fz => Some (SFmul prec emax fz x)
  | None => None
  end.

(** [int(x)] truncates towards zero; [None] for the exception on an infinity
    or a NaN. *)
Definition to_int (x : spec_float) : option Z :=
  match x with
  | S754_zero _ => Some 0
  | S754_finite s m e =>
      Some (cond_Zopp s (if 0 <=? e then Zpos m * 2 ^ e else Zpos m / 2 ^ (- e)))
  | _ => None
  end.

Definition one : spec_float := binary_normalize prec emax 1 0 false.

(** [x > 1] *)
Definition gt_one (x : spec_float) : bool := SFltb one x.

End PyFloat.

(** ** Preview scheduler *)

Module PreviewScheduler.
Import PyStr LayoutEngine Checkerboard.
Local Open Scope Z_scope.

(** The side of the preview: [scale = min(panel_w, panel_h) / size],
    [if scale > 1: scale = 1], [display_size = int(size * scale)],
    [display_size = max(display_size, 100)].  [None] when one of these
    raises. *)
Definition display_size (size panel_w panel_h : Z) : option Z :=
  match PyFloat.true_divide (Z.min panel_w panel_h) size with
  | None => None
  | Some scale =>
      let scaled :=
        if PyFloat.gt_one scale then Some size
        else match PyFloat.int_mul size scale with
             | Some product => PyFloat.to_int product
             | None => None
             end in
      match scaled with
      | Some display_size => Some (Z.max display_size 100)
      | None => None
      end
  end.

Section WithPillow.
Context {Font : Type}.
Variable truetype : string -> Z -> option Font.
Variable load_default : Font.
Variable textbbox : Font -> string -> string -> Z -> Z * Z * Z * Z.

(** The arguments of one [executor.submit(self._threaded_render, ...)]. *)
Record render_job : Type := mkJob {
  job_size : Z;
  job_text : string;
  job_font_size : Z;
  job_font_obj : Font;
  job_alignment : string;
  job_position : string;
  job_padding : Z;
  job_line_spacing : Z;
  job_panel_w : Z;
  job_panel_h : Z;
  job_req_id : Z
}.

(** The picture of the preview: the copy of the checkerboard, the text layer
    pasted on it at (0, 0) with itself as the mask, and the side it was
    resized to, if it was.  The pixels are left to Pillow. *)
Record preview : Type := mkPreview {
  pv_background : board;
  pv_text_layer : image Font;
  pv_resized : option Z           (* [bg.resize((d, d), LANCZOS)] *)
}.

(** The arguments of one [root.after(0, lambda: self._apply_preview(...))]. *)
Record frame : Type := mkFrame {
  frame_image : preview;
  frame_display_size : Z;
  frame_req_id : Z
}.

(** [ctk.CTkImage(light_image=.., dark_image=.., size=..)], both images the same. *)
Record ctk_image : Type := mkCTkImage {
  light_image : preview;
  ctk_size : Z * Z
}.

Record Session : Type := mkSession {
  app : App Font;
  executor_queue : list render_job;     (* submitted, not yet run *)
  after_queue : list frame;             (* rendered, not yet applied *)
  preview_image_ref : option ctk_image;
  applied_req_ids : list Z;             (* tags of the frames shown, latest first *)
  _checkerboard_cache : gmap Z board
}.

Definition initial_session : Session :=
  mkSession initial_app [] [] None [] ∅.

(** [panel] is what [right_panel.winfo_width()] and [winfo_height()] return,
    or [None] when the [try] block raises (an exception is modelled at its
    last statements, after the font lookup). *)
Definition update_preview_thread_launcher (panel : option (Z * Z)) (s : Session) : Session :=
  let st := set_preview_req_id (preview_req_id (app s) + 1) (app s) in
  let req_id := preview_req_id st in
  let size := current_size st in
  let text := if String.eqb (text_input st) "" then " " else text_input st in
  let font_size := font_size_var st in
  let '(font_obj, st) := FontObjectCache.get_font_object truetype load_default font_size st in
  let alignment := text_align_var st in
  let position := text_position_var st in
  let padding := padding_var st in
  let line_spacing := line_spacing_var st in
  match panel with
  | None =>
      mkSession st (executor_queue s) (after_queue s) (preview_image_ref s)
        (applied_req_ids s) (_checkerboard_cache s)
  | Some (width, height) =>
      let panel_w := width in
      let panel_h := height - 60 in
      let panel_w := if panel_w <? 200 then 500 else panel_w in
      let panel_h := if panel_h <? 200 then 500 else panel_h in
      mkSession st
        (executor_queue s ++
           [mkJob size text font_size font_obj alignment position padding line_spacing
              panel_w panel_h req_id])%list
        (after_queue s) (preview_image_ref s) (applied_req_ids s) (_checkerboard_cache s)
  end.

(** The worker runs one job.  [ok] is false when a call into Pillow raises,
    modelled at the first one, the rendering of the text layer.  Any exception
    is logged and schedules nothing; one raised after the checkerboard was
    made leaves the checkerboard in its cache. *)
Definition _threaded_render (job : render_job) (ok : bool) (s : Session) : Session :=
  if negb ok then s
  else
    let text_layer :=
      fst (create_text_image_pil truetype load_default textbbox
             (job_text job) (job_size job) (job_font_size job) (Some (job_font_obj job))
             (job_alignment job) (job_position job) (job_padding job)
             (job_line_spacing job) (app s)) in
    match get_cached_checkerboard (job_size job) 20 (_checkerboard_cache s) with
    | None => s
    | Some (bg, cache) =>
        match display_size (job_size job) (job_panel_w job) (job_panel_h job) with
        | None =>
            mkSession (app s) (executor_queue s) (after_queue s) (preview_image_ref s)
              (applied_req_ids s) cache
        | Some display_size =>
            let bg :=
              mkPreview bg text_layer
                (if negb (display_size =? job_size job) then Some display_size else None) in
            mkSession (app s) (executor_queue s)
              (after_queue s ++ [mkFrame bg display_size (job_req_id job)])%list
              (preview_image_ref s) (applied_req_ids s) cache
        end
    end.

(** [ok] is false when building or showing the image raises ([except: pass]). *)
Definition _apply_preview (pil_image : preview) (display_size req_id : Z) (ok : bool)
    (s : Session) : Session :=
  if negb (req_id =? preview_req_id (app s)) then s
  else if ok
       then mkSession (app s) (executor_queue s) (after_queue s)
              (Some (mkCTkImage pil_image (display_size, display_size)))
              (req_id :: applied_req_ids s) (_checkerboard_cache s)
       else s.

Inductive event : Type :=
  | TimerFires (panel : option (Z * Z))   (* the debounce delay elapsed *)
  | WorkerRuns (i : nat) (ok : bool)      (* the worker takes the queued job [i];
                                             the single worker of the program
                                             always takes job 0 *)
  | TkRuns (i : nat) (ok : bool)          (* Tk runs the pending callback [i] *)
  | TextEdited (t : string).

Definition step (s : Session) (e : event) : Session :=
  match e with
  | TimerFires panel => update_preview_thread_launcher panel s
  | WorkerRuns i ok =>
      match executor_queue s !! i with
      | Some job =>
          _threaded_render job ok
            (mkSession (app s) (delete i (executor_queue s)) (after_queue s)
               (preview_image_ref s) (applied_req_ids s) (_checkerboard_cache s))
      | None => s
      end
  | TkRuns i ok =>
      match after_queue s !! i with
      | Some f =>
          _apply_preview (frame_image f) (frame_display_size f) (frame_req_id f) ok
            (mkSession (app s) (executor_queue s) (delete i (after_queue s))
               (preview_image_ref s) (applied_req_ids s) (_checkerboard_cache s))
      | None => s
      end
  | TextEdited t =>
      mkSession (set_text_input t (app s)) (executor_queue s) (after_queue s)
        (preview_image_ref s) (applied_req_ids s) (_checkerboard_cache s)
  end.

Definition run (es : list event) (s : Session) : Session := foldl step s es.

(** No tag in flight or on display is ahead of the counter, and the frames
    shown carry tags that never decrease. *)
Definition well_tagged (s : Session) : Prop :=
  Forall (fun job => job_req_id job <= preview_req_id (app s)) (executor_queue s)
  /\ Forall (fun f => frame_req_id f <= preview_req_id (app s)) (after_queue s)
  /\ Forall (fun t => t <= preview_req_id (app s)) (applied_req_ids s)
  /\ StronglySorted (fun newer older => older <= newer) (applied_req_ids s).
End WithPillow.

Arguments render_job : clear implicits.
Arguments preview : clear implicits.
Arguments frame : clear implicits.
Arguments ctk_image : clear implicits.
Arguments Session : clear implicits.

End PreviewScheduler.

(** ** Export pipeline *)

Module ExportPipeline.
Import PyStr PosixPath LayoutEngine.

Definition get_relative_texture_path (absolute_path : string) : string :=
  let normalized := replace "\" "/" absolute_path in
  if contains "/materials/" normalized then
    let split_part :=
      match split_first "/materials/" normalized with
      | Some (_, after) => after
      | None => ""        (* not reached: the separator occurs *)
      end in
    "materials/" +:+ split_part
  else
    let parent := basename (dirname normalized) in
    let filename := basename normalized in
    "materials/" +:+ parent +:+ "/" +:+ filename.

Definition NL : string := String (ascii_of_nat 10) "".
Definition TAB : string := String (ascii_of_nat 9) "".
Definition QUOTE : string := String (ascii_of_nat 34) "".

Definition generate_vmat_content (shader color_path trans_path : string) : string :=
  String.concat NL
    ["// THIS FILE IS AUTO-GENERATED";
     "";
     "Layer0";
     "{";
     TAB +:+ "shader " +:+ QUOTE +:+ shader +:+ QUOTE;
     "";
     TAB +:+ "//---- Blend Mode ----";
     TAB +:+ "F_BLEND_MODE 1 // Translucent";
     "";
     TAB +:+ "//---- Color ----";
     TAB +:+ "g_flModelTintAmount " +:+ QUOTE +:+ "1.000" +:+ QUOTE;
     TAB +:+ "g_vColorTint " +:+ QUOTE +:+ "[1.000000 1.000000 1.000000 0.000000]" +:+ QUOTE;
     TAB +:+ "TextureColor " +:+ QUOTE +:+ color_path +:+ QUOTE;
     "";
     TAB +:+ "//---- Fog ----";
     TAB +:+ "g_bFogEnabled " +:+ QUOTE +:+ "1" +:+ QUOTE;
     "";
     TAB +:+ "//---- Translucent ----";
     TAB +:+ "g_flOpacityScale " +:+ QUOTE +:+ "1.000" +:+ QUOTE;
     TAB +:+ "TextureTranslucency " +:+ QUOTE +:+ trans_path +:+ QUOTE;
     "}";
     ""].

Section WithPillow.
Context {Font : Type}.
Variable truetype : string -> Z -> option Font.
Variable load_default : Font.
Variable textbbox : Font -> string -> string -> Z -> Z * Z * Z * Z.
(** [os.path.abspath], which depends on the working directory. *)
Variable abspath : string -> string.
(** [write_error path] is the message of the exception that writing [path]
    raises, or [None] when the write succeeds. *)
Variable write_error : string -> option string.

Inductive content : Type :=
  | PNG (img : image Font)
  | TextFile (text : string).

(** What an export does to the outside, in order. *)
Inductive effect : Type :=
  | Write (path : string) (c : content)
  | LogSection (title : string)
  | LogInfo (tag message : string)
  | LogSuccess (tag message : string)
  | LogError (tag message : string)
  | ShowSuccess (msg path_to_open : string)
      (* [root.after(0, lambda: self._show_success(msg, path_to_open))] *)
  | AfterStopLoadingError.
      (* [root.after(0, lambda: self._stop_loading_error(str(e)))]: the lambda
         reads the handler's variable [e] when Tk calls it *)

(** What the user gets when Tk runs a callback queued by an export. *)
Inductive dialog : Type :=
  | SuccessDialog (msg path_to_open : string)
  | ErrorDialog (error_msg : string)
  | NameError (name : string).    (* the callback raises: Tk prints the traceback,
                                     no dialog opens and the progress bar is
                                     not stopped *)

(** [e] is the variable of [except Exception as e] as the callback finds it:
    [Some] while the handler runs, [None] once it has ended, because Python
    deletes the variable at the end of the [except] clause. *)
Definition run_callback (e : option string) (eff : effect) : option dialog :=
  match eff with
  | ShowSuccess msg path_to_open => Some (SuccessDialog msg path_to_open)
  | AfterStopLoadingError =>
      Some (match e with
            | Some error_msg => ErrorDialog error_msg
            | None => NameError "e"
            end)
  | _ => None
  end.

(** What the callbacks of a trace show.  [root.after] only queues them, as the
    last statement of the handler; the event loop runs them when the handler
    has ended. *)
Definition shown (trace : list effect) : list dialog :=
  omap (run_callback None) trace.

(** A computation that has effects and then returns or raises [str(e)]. *)
Definition Run (A : Type) : Type := list effect * (string + A).

Definition ret {A} (a : A) : Run A := ([], inr a).
Definition raise {A} (e : string) : Run A := ([], inl e).
Definition tell (eff : effect) : Run unit := ([eff], inr tt).

Definition bind {A B} (m : Run A) (k : A -> Run B) : Run B :=
  match m with
  | (done, inl e) => (done, inl e)
  | (done, inr a) => let '(more, r) := k a in ((done ++ more)%list, r)
  end.

(** [try: body / except Exception as e: handler(str(e))] *)
Definition try_except (body : Run unit) (handler : string -> Run unit) : Run unit :=
  match body with
  | (done, inl e) => let '(more, r) := handler e in ((done ++ more)%list, r)
  | (done, inr a) => (done, inr a)
  end.

Notation "'let!' x ':=' m 'in' k" := (bind m (fun x => k))
  (at level 10, x name, m at level 200, k at level 200).
Notation "m >>> k" := (bind m (fun _ => k))
  (at level 100, k at level 200, right associativity).

(** [img.save(path)], [open(path, "w").write(text)] *)
Definition write (path : string) (c : content) : Run unit :=
  match write_error path with
  | Some e => raise e
  | None => tell (Write path c)
  end.

Fixpoint for_each (items : list nat) (body : nat -> Run unit) : Run unit :=
  match items with
  | [] => ret tt
  | i :: rest => body i >>> for_each rest body
  end.

(** The [data] dictionary; the batch builds it without the key ['text']. *)
Record export_data : Type := mkData {
  d_size : Z;
  d_text : option string;
  d_font_size : Z;
  d_font_obj : Font;
  d_alignment : string;
  d_position : string;
  d_padding : Z;
  d_line_spacing : Z;
  d_mask : bool;
  d_vmat : bool;
  d_shader : string
}.

(** [data['text']] *)
Definition data_text (data : export_data) : Run string :=
  match d_text data with
  | Some t => ret t
  | None => raise "'text'"
  end.

Definition _gather_and_save (st : App Font) : export_data * App Font :=
  let '(font_obj, st') :=
    FontObjectCache.get_font_object truetype load_default (font_size_var st) st in
  (mkData (current_size st) (Some (text_input st)) (font_size_var st) font_obj
     (text_align_var st') (text_position_var st') (padding_var st') (line_spacing_var st')
     (mask_layer_enabled st') (vmat_enabled st') (shader_var st'), st').

(** The renderers are called with a font, so they leave [st] as it is. *)
Definition _perform_save (save_path : string) (data : export_data) (st : App Font)
    : Run unit :=
  try_except
    (let base_path := replace ".png" "" (replace "_color.png" "" save_path) in
     let! text := data_text data in
     let img :=
       fst (create_text_image_pil truetype load_default textbbox text (d_size data)
              (d_font_size data) (Some (d_font_obj data)) (d_alignment data)
              (d_position data) (d_padding data) (d_line_spacing data) st) in
     let color_filename := base_path +:+ "_color.png" in
     write color_filename (PNG img) >>>
     let trans_filename := base_path +:+ "_trans.png" in
     let mask :=
       create_mask_image textbbox text (d_size data) (d_font_obj data) (d_alignment data)
         (d_position data) (d_padding data) (d_line_spacing data) st in
     (if d_mask data || d_vmat data then write trans_filename (PNG mask) else ret tt) >>>
     (if d_vmat data then
        let color_abs := abspath color_filename in
        let trans_abs := abspath trans_filename in
        let vmat_content :=
          generate_vmat_content (d_shader data)
            (get_relative_texture_path color_abs)
            (get_relative_texture_path trans_abs) in
        write (base_path +:+ ".vmat") (TextFile vmat_content)
      else ret tt) >>>
     let output_dir := dirname base_path in
     tell (ShowSuccess ("Saved files to " +:+ output_dir) output_dir) >>>
     tell (LogSuccess "EXPORT" ("Saved files to " +:+ base_path)))
    (fun e =>
       tell (LogError "EXPORT" ("Failed to save: " +:+ e)) >>>
       tell AfterStopLoadingError).

Definition _batch_numbers_logic (st : App Font) : export_data * App Font :=
  let '(font_obj, st') :=
    FontObjectCache.get_font_object truetype load_default (current_size st) st in
  (mkData (current_size st) None (current_size st) font_obj
     (text_align_var st') (text_position_var st') (padding_var st') (line_spacing_var st')
     (mask_layer_enabled st') (vmat_enabled st') (shader_var st'), st').

(** Body of [for i in range(10)]. *)
Definition batch_item (directory : string) (data : export_data) (st : App Font)
    (i : nat) : Run unit :=
  let text := str_nat i in
  let base := join directory (str_nat i) in
  let img :=
    fst (create_text_image_pil truetype load_default textbbox text (d_size data)
           (d_font_size data) (Some (d_font_obj data)) (d_alignment data)
           (d_position data) (d_padding data) (d_line_spacing data) st) in
  write (base +:+ "_color.png") (PNG img) >>>
  let mask :=
    create_mask_image textbbox text (d_size data) (d_font_obj data) (d_alignment data)
      (d_position data) (d_padding data) (d_line_spacing data) st in
  (if d_mask data || d_vmat data then write (base +:+ "_trans.png") (PNG mask) else ret tt) >>>
  (if d_vmat data then
     let c_path := get_relative_texture_path (abspath (base +:+ "_color.png")) in
     let t_path := get_relative_texture_path (abspath (base +:+ "_trans.png")) in
     let content := generate_vmat_content (d_shader data) c_path t_path in
     write (base +:+ ".vmat") (TextFile content)
   else ret tt) >>>
  tell (LogInfo "BATCH" ("Generated number: " +:+ str_nat i)).

Definition _perform_batch (directory : string) (data : export_data) (st : App Font)
    : Run unit :=
  try_except
    (tell (LogSection "BATCH EXPORT") >>>
     for_each (seq 0 10) (batch_item directory data st) >>>
     tell (ShowSuccess ("Batch complete in " +:+ directory) directory) >>>
     tell (LogSuccess "BATCH" ("Batch generation complete in " +:+ directory)))
    (fun e =>
       tell (LogError "BATCH" ("Batch failed: " +:+ e)) >>>
       tell AfterStopLoadingError).

(** The paths written, in order. *)
Definition written (trace : list effect) : list string :=
  flat_map (fun eff => match eff with Write path _ => [path] | _ => [] end) trace.

(** The files written with what they hold, in order. *)
Definition files (trace : list effect) : list (string * content) :=
  flat_map (fun eff => match eff with Write path c => [(path, c)] | _ => [] end) trace.

(** What was logged and what was queued for the user, in order. *)
Definition reported (trace : list effect) : list effect :=
  flat_map (fun eff => match eff with Write _ _ => [] | _ => [eff] end) trace.

(** The texts that the images written were measured and drawn with. *)
Definition rendered_texts (trace : list effect) : list string :=
  flat_map (fun eff =>
              match eff with
              | Write _ (PNG img) => map dt_text (im_draws img)
              | _ => []
              end) trace.
End WithPillow.

Arguments content : clear implicits.
Arguments effect : clear implicits.
Arguments export_data : clear implicits.
Arguments Run : clear implicits.

End ExportPipeline.

(** ** Font selection and the life of the font object cache *)

Definition set_font_family_var {Font} (font_name : string) (st : App Font) : App Font :=
  mkApp (current_size st) (text_input st) (text_align_var st) (text_position_var st)
    (padding_var st) (line_spacing_var st) (font_size_var st) font_name
    (outline_color_rgb st) (text_color_rgb st) (outline_enabled st) (outline_width_var st)
    (mask_layer_enabled st) (vmat_enabled st) (shader_var st)
    (font_paths st) (available_fonts st) (_font_obj_cache st) (preview_req_id st).

Module FontCacheOps.
Section WithPillow.
Context {Font : Type}.
Variable truetype : string -> Z -> option Font.
Variable load_default : Font.

(** What happens to the catalog, the selected font and the font object cache
    while the program runs. *)
Inductive op : Type :=
  | Lookup (size : Z)                   (* [get_font_object(size)] *)
  | FontChosen (font_name : string)     (* [font_family_var.set(font_name)] *)
  | ScanFinished (result : option (list string * gmap string string))
  | RescanPressed.                      (* [rescan_fonts_action] *)

Definition apply_op (st : App Font) (o : op) : App Font :=
  match o with
  | Lookup size => snd (FontObjectCache.get_font_object truetype load_default size st)
  | FontChosen font_name => set_font_family_var font_name st
  | ScanFinished result => finish_font_scan result st
  | RescanPressed => rescan_fonts_action st
  end.

Definition run_ops (ops : list op) (st : App Font) : App Font := foldl apply_op st ops.
End WithPillow.
End FontCacheOps.

(** ** Debounced preview updates *)

Module Debounce.
Import PreviewScheduler.

Section WithPillow.
Context {Font : Type}.
Variable truetype : string -> Z -> option Font.
Variable load_default : Font.
Variable textbbox : Font -> string -> string -> Z -> Z * Z * Z * Z.

(** The scheduler with the Tk timers of [root.after(150, ...)]: the identifier
    kept in [debounce_timer], the timers that are pending, and the next
    identifier Tk hands out. *)
Record Ui : Type := mkUi {
  session : Session Font;
  debounce_timer : option nat;
  pending_timers : list nat;
  next_timer_id : nat
}.

Definition initial_ui : Ui := mkUi (initial_session (Font := Font)) None [] 0.

(** [after_cancel] of a timer that has run or was cancelled does nothing. *)
Definition after_cancel (id : nat) (pending : list nat) : list nat :=
  filter (fun t => t <> id) pending.

Definition trigger_preview_update (ui : Ui) : Ui :=
  let pending :=
    match debounce_timer ui with
    | Some id => after_cancel id (pending_timers ui)
    | None => pending_timers ui
    end in
  let id := next_timer_id ui in
  mkUi (session ui) (Some id) (pending ++ [id]) (S id).

Definition select_font (font_name : string) (ui : Ui) : Ui :=
  let s := session ui in
  trigger_preview_update
    (mkUi (mkSession (set_font_family_var font_name (app s)) (executor_queue s)
             (after_queue s) (preview_image_ref s) (applied_req_ids s)
             (_checkerboard_cache s))
       (debounce_timer ui) (pending_timers ui) (next_timer_id ui)).

(** Tk runs the timer [id], if it is still pending. *)
Definition timer_due (id : nat) (panel : option (Z * Z)) (ui : Ui) : Ui :=
  if bool_decide (id ∈ pending_timers ui)
  then mkUi (update_preview_thread_launcher truetype load_default panel (session ui))
         (debounce_timer ui) (after_cancel id (pending_timers ui)) (next_timer_id ui)
  else ui.

Inductive ui_event : Type :=
  | Changed                                   (* a handler calls [trigger_preview_update] *)
  | FontSelected (font_name : string)         (* [select_font] *)
  | TimerDue (id : nat) (panel : option (Z * Z))
  | Background (e : event).                   (* the worker, a Tk callback or an edit *)

Definition ui_step (ui : Ui) (e : ui_event) : Ui :=
  match e with
  | Changed => trigger_preview_update ui
  | FontSelected font_name => select_font font_name ui
  | TimerDue id panel => timer_due id panel ui
  | Background (TimerFires _) => ui      (* the launcher runs from its timer only *)
  | Background e =>
      mkUi (step truetype load_default textbbox (session ui) e)
        (debounce_timer ui) (pending_timers ui) (next_timer_id ui)
  end.

Definition ui_run (es : list ui_event) (ui : Ui) : Ui := foldl ui_step ui es.

Definition is_change (e : ui_event) : bool :=
  match e with
  | Changed | FontSelected _ => true
  | _ => false
  end.

(** How often a handler asked for a preview. *)
Definition count_changes (es : list ui_event) : nat :=
  length (List.filter is_change es).
End WithPillow.

Arguments Ui : clear implicits.

End Debounce.

(** ** A small Pillow and file system, to run the program on *)

Module Demo.
Import PyStr.

Inductive font : Type :=
  | Default
  | Loaded (path : string) (size : Z).

(** Every file that ends in [.ttf] loads. *)
Definition truetype (path : string) (size : Z) : option font :=
  if endswith path ".ttf" then Some (Loaded path size) else None.

(** Ten pixels a character, twenty a line, with a bearing of (1, 2). *)
Definition textbbox (f : font) (text align : string) (spacing : Z) : Z * Z * Z * Z :=
  (1, 2, 1 + 10 * Z.of_nat (String.length text), 22)%Z.

Definition abspath (path : string) : string :=
  if startswith path "/" then path else "/home/user/" +:+ path.

(** Nothing under [/readonly/] can be written. *)
Definition write_error (path : string) : option string :=
  if startswith path "/readonly/" then Some "Permission denied" else None.

(** The digit 3 cannot be written. *)
Definition write_error_3 (path : string) : option string :=
  if contains "/3_" path then Some "Permission denied" else None.

(** Two font files with distinct cleaned names, and a file that is no font. *)
Definition walk_distinct (font_dir : string) : option (list (string * list string)) :=
  if String.eqb font_dir "/usr/share/fonts"
  then Some [("/usr/share/fonts", ["Arial.ttf"; "fonts.dir"]);
             ("/usr/share/fonts/lato", ["Lato-Bold.TTF"])]
  else None.

(** A family that names its files by style alone. *)
Definition walk_style_only (font_dir : string) : option (list (string * list string)) :=
  if String.eqb font_dir "/usr/share/fonts"
  then Some [("/usr/share/fonts", ["Arial.ttf"]);
             ("/usr/share/fonts/inter", ["Bold.ttf"])]
  else None.

Definition font_dirs : list string :=
  ["/usr/share/fonts"; "/home/user/.fonts"; "/home/user/.local/share/fonts"].

(** The application once the scan thread has found one font. *)
Definition scanned_app : App font :=
  finish_font_scan
    (Some (["calibri"], {["calibri" := "/usr/share/fonts/calibri.ttf"]}))
    initial_app.

End Demo.

(** * Properties *)

(** ** Strings *)

Module PyStrFacts.
Import PyStr.
#[local] Arguments String.append !_ _ / : simpl nomatch.

Lemma app_nil_r (s : string) : s +:+ "" = s.
Proof. induction s as [|a s IH]; simpl; [done|]. by rewrite IH. Qed.

Lemma app_assoc (s t u : string) : (s +:+ t) +:+ u = s +:+ t +:+ u.
Proof. induction s as [|a s IH]; simpl; [done|]. by rewrite IH. Qed.

Lemma length_app (s t : string) :
  String.length (s +:+ t) = String.length s + String.length t.
Proof. induction s as [|a s IH]; simpl; [done|]. by rewrite IH. Qed.

Lemma take_drop (n : nat) (s : string) : take n s +:+ drop n s = s.
Proof.
  revert s. induction n as [|n IH]; intros [|a s]; simpl; try done.
  by rewrite IH.
Qed.

Lemma take_app_length (p q : string) : take (String.length p) (p +:+ q) = p.
Proof.
  induction p as [|a p IH]; simpl; [by destruct q|]. by rewrite IH.
Qed.

Lemma drop_app_length (p q : string) : drop (String.length p) (p +:+ q) = q.
Proof. induction p as [|a p IH]; simpl; done. Qed.

Lemma length_take (n : nat) (s : string) :
  String.length (take n s) = Nat.min n (String.length s).
Proof.
  revert s. induction n as [|n IH]; intros [|a s]; simpl; try done.
  by rewrite IH.
Qed.

Lemma length_drop (n : nat) (s : string) :
  String.length (drop n s) = String.length s - n.
Proof.
  revert s. induction n as [|n IH]; intros [|a s]; simpl; try done.
Qed.

Lemma app_inv_tail (p p' q : string) : p +:+ q = p' +:+ q -> p = p'.
Proof.
  intros H.
  assert (String.length p = String.length p') as Hlen.
  { apply (f_equal String.length) in H. rewrite !length_app in H. lia. }
  rewrite <- (take_app_length p q), H, Hlen. apply take_app_length.
Qed.

Lemma startswith_nil (s : string) : startswith s "" = true.
Proof. by destruct s. Qed.

Lemma startswith_spec (s p : string) :
  startswith s p = true <-> exists r, s = p +:+ r.
Proof.
  revert s. induction p as [|b p IH]; intros s.
  - destruct s; simpl; split; eauto.
  - destruct s as [|a s]; simpl.
    + split; [done|]. by intros [r ?].
    + rewrite andb_true_iff, Ascii.eqb_eq, IH. split.
      * intros [-> [r ->]]. by exists r.
      * intros [r [= -> ->]]. eauto.
Qed.

Lemma endswith_spec (s suf : string) :
  endswith s suf = true <-> exists p, s = p +:+ suf.
Proof.
  unfold endswith. rewrite String.eqb_eq. split.
  - intros H. exists (take (String.length s - String.length suf) s).
    rewrite <- H at 2. by rewrite take_drop.
  - intros [p ->]. rewrite length_app.
    replace (String.length p + String.length suf - String.length suf)
      with (String.length p) by lia.
    apply drop_app_length.
Qed.

Lemma endswith_take (p suf : string) :
  take (String.length (p +:+ suf) - String.length suf) (p +:+ suf) = p.
Proof.
  rewrite length_app.
  replace (String.length p + String.length suf - String.length suf)
    with (String.length p) by lia.
  apply take_app_length.
Qed.

Lemma contains_spec (sub s : string) :
  contains sub s = true <-> exists pre post, s = pre +:+ sub +:+ post.
Proof.
  induction s as [|a s IH]; cbn [contains].
  - rewrite orb_false_r, startswith_spec. split.
    + intros [r ->]. by exists "", r.
    + intros [[|b pre] [post H]]; [by exists post|done].
  - rewrite orb_true_iff, startswith_spec, IH. split.
    + intros [[r ->]|(pre & post & ->)]; [by exists "", r|].
      by exists (String a pre), post.
    + intros [[|b pre] [post H]]; [left; by exists post|].
      right. injection H as -> ->. eauto.
Qed.

Lemma contains_false (sub s pre post : string) :
  contains sub s = false -> s <> pre +:+ sub +:+ post.
Proof.
  intros Hc ->. assert (contains sub (pre +:+ sub +:+ post) = true) as Ht.
  { apply contains_spec. eauto. }
  congruence.
Qed.

(** [split_first] cuts at the first occurrence. *)
Lemma split_first_spec (sep s p q : string) :
  split_first sep s = Some (p, q) ->
  s = p +:+ sep +:+ q
  /\ forall p' q', s = p' +:+ sep +:+ q' -> String.length p <= String.length p'.
Proof.
  revert p q. induction s as [|a s IH]; intros p q; cbn [split_first].
  - destruct (startswith "" sep) eqn:Hs; [|done].
    intros [= <- <-]. apply startswith_spec in Hs as [r Hr].
    destruct sep; [|done]. split; [done|]. simpl; lia.
  - destruct (startswith (String a s) sep) eqn:Hs.
    + intros [= <- <-]. apply startswith_spec in Hs as [r Hr].
      split; [|simpl; lia].
      rewrite Hr, drop_app_length. done.
    + destruct (split_first sep s) as [[p0 q0]|] eqn:Hrec; [|done].
      intros [= <- <-]. destruct (IH _ _ eq_refl) as [-> Hmin]. split; [done|].
      intros [|b p'] q' H.
      * assert (startswith (String a (p0 +:+ sep +:+ q0)) sep = true); [|congruence].
        apply startswith_spec. by exists q'.
      * injection H as -> H. simpl. apply Hmin in H. lia.
Qed.

Lemma split_first_contains (sep s : string) :
  contains sep s = true -> is_Some (split_first sep s).
Proof.
  induction s as [|a s IH]; cbn [contains split_first].
  - rewrite orb_false_r. by intros ->.
  - destruct (startswith (String a s) sep); [done|]. cbn [orb].
    intros [[p q] ->]%IH. done.
Qed.

Lemma replace_char (c d : ascii) (s : string) :
  replace (String c "") (String d "") s
  = map_chars (fun a => if Ascii.eqb a c then d else a) s.
Proof.
  unfold replace. induction s as [|a s IH]; [done|].
  cbn [replace_go startswith map_chars String.length Nat.sub].
  rewrite startswith_nil, andb_true_r. destruct (Ascii.eqb a c); simpl; by rewrite IH.
Qed.

Lemma map_chars_id (f : ascii -> ascii) (s : string) :
  (forall pre a post, s = pre +:+ String a post -> f a = a) -> map_chars f s = s.
Proof.
  induction s as [|a s IH]; intros H; simpl; [done|].
  rewrite (H "" a s eq_refl), IH; [done|].
  intros pre b post ->. by apply (H (String a pre) b post).
Qed.

Lemma rfind_None (c : ascii) (s : string) :
  rfind c s = None <-> contains (String c "") s = false.
Proof.
  induction s as [|a s IH]; cbn [rfind contains startswith]; [done|].
  rewrite startswith_nil, andb_true_r, orb_false_iff, <- IH.
  destruct (rfind c s), (Ascii.eqb a c); intuition congruence.
Qed.

Lemma rfind_last (c : ascii) (p q : string) :
  rfind c q = None -> rfind c (p +:+ String c q) = Some (String.length p).
Proof.
  intros Hq. induction p as [|a p IH]; simpl.
  - by rewrite Hq, Ascii.eqb_refl.
  - by rewrite IH.
Qed.

Lemma rfind_app_None (c : ascii) (p q : string) :
  rfind c (p +:+ q) = None -> rfind c p = None /\ rfind c q = None.
Proof.
  induction p as [|a p IH]; simpl; [done|].
  destruct (rfind c (p +:+ q)); [done|].
  destruct (Ascii.eqb a c); [done|]. intros _.
  destruct IH as [-> ->]; done.
Qed.

Lemma snoc_inv (s : string) : s <> "" -> exists s' a, s = s' +:+ String a "".
Proof.
  induction s as [|a s IH]; [done|]. intros _.
  destruct s as [|b s]; [by exists "", a|].
  destruct IH as (s' & c & ->); [done|]. by exists (String a s'), c.
Qed.

Lemma rstrip_snoc_ne (c a : ascii) (s : string) :
  a <> c -> rstrip c (s +:+ String a "") = s +:+ String a "".
Proof.
  intros Hne. induction s as [|b s IH]; simpl.
  - apply Ascii.eqb_neq in Hne. by rewrite Hne.
  - rewrite IH. by destruct s.
Qed.

Lemma rstrip_snoc_eq (c : ascii) (s : string) :
  rstrip c (s +:+ String c "") = rstrip c s.
Proof.
  induction s as [|b s IH]; simpl.
  - by rewrite Ascii.eqb_refl.
  - by rewrite IH.
Qed.

Lemma all_char_app (c : ascii) (p q : string) :
  all_char c (p +:+ q) = all_char c p && all_char c q.
Proof.
  induction p as [|a p IH]; simpl; [done|]. by rewrite IH, andb_assoc.
Qed.

Example python_strings :
  replace "_color.png" "" "out/a_color.png" = "out/a"
  /\ replace ".png" "" "out/a.png" = "out/a"
  /\ split_first "/materials/" "/g/materials/x/materials/a.png"
     = Some ("/g", "x/materials/a.png")
  /\ lower "Top Left" = "top left"
  /\ contains "left" "top left" = true
  /\ endswith "Arial-Bold" "Bold" = true
  /\ endswith "ld" "Bold" = false
  /\ rstrip "/" "/a/b//" = "/a/b"
  /\ map str_nat (seq 0 10) = ["0"; "1"; "2"; "3"; "4"; "5"; "6"; "7"; "8"; "9"]
  /\ str_nat 512 = "512".
Proof. repeat split; reflexivity. Qed.

End PyStrFacts.

(** ** Font catalog *)

Module FontCatalogFacts.
Import PyStr PyStrFacts FontCatalog.

Lemma endswith_false (name suffix : string) :
  (forall p, name <> p +:+ suffix) -> endswith name suffix = false.
Proof.
  intros H. destruct (endswith name suffix) eqn:E; [|done].
  apply endswith_spec in E as [p ->]. by destruct (H p).
Qed.

Lemma strip_first_suffix_none (suffixes : list string) (name : string) :
  (forall s, s ∈ suffixes -> forall p, name <> p +:+ s) ->
  strip_first_suffix suffixes name = name.
Proof.
  induction suffixes as [|s rest IH]; intros H; simpl; [done|].
  rewrite endswith_false by (apply H; left).
  apply IH. intros s' Hs'. apply H. by right.
Qed.

Lemma strip_first_suffix_first (before after : list string) (suffix name p : string) :
  suffix <> "" ->
  name = p +:+ suffix ->
  (forall s, s ∈ before -> forall p', name <> p' +:+ s) ->
  strip_first_suffix (before ++ suffix :: after) name = p.
Proof.
  intros Hne -> Hbefore. induction before as [|s rest IH]; simpl.
  - assert (endswith (p +:+ suffix) suffix = true) as ->.
    { apply endswith_spec. eauto. }
    unfold drop_last. destruct suffix as [|a suffix]; [done|].
    change (String.length (String a suffix) =? 0)%nat with false.
    cbv iota. apply endswith_take.
  - rewrite endswith_false by (apply Hbefore; left).
    apply IH. intros s' Hs'. apply Hbefore. by right.
Qed.

Lemma style_suffix_nonempty (suffix : string) :
  suffix ∈ style_suffixes -> suffix <> "".
Proof.
  unfold style_suffixes. rewrite !elem_of_cons, elem_of_nil.
  intros H ->. intuition discriminate.
Qed.

(** [C7] Cleaning strips at most one trailing style suffix, the first entry of
    the candidate list that the name ends with: a name that ends with no entry
    is unchanged; the first matching entry is the one removed; a name that ends
    with exactly one entry loses that entry.  The list is order-sensitive (the
    longer "-Italic" is never chosen, "Italic" comes first), case-sensitive,
    and a second suffix stays. *)
Theorem clean_font_name_first_suffix (font_name : string) :
  ((forall suffix, suffix ∈ style_suffixes -> forall p, font_name <> p +:+ suffix) ->
   clean_font_name font_name = font_name)
  /\ (forall before suffix after p,
        style_suffixes = (before ++ suffix :: after)%list ->
        font_name = p +:+ suffix ->
        (forall s, s ∈ before -> forall p', font_name <> p' +:+ s) ->
        clean_font_name font_name = p)
  /\ (forall suffix p,
        suffix ∈ style_suffixes ->
        font_name = p +:+ suffix ->
        (forall s, s ∈ style_suffixes -> s <> suffix -> forall p', font_name <> p' +:+ s) ->
        clean_font_name font_name = p)
  /\ clean_font_name "Lato-Italic" = "Lato-"
  /\ clean_font_name "Lato-BoldItalic" = "Lato-Bold"
  /\ clean_font_name "Lato-bold" = "Lato-bold".
Proof.
  split; [|split; [|split; [|by vm_compute]]].
  - apply strip_first_suffix_none.
  - intros before suffix after p Hlist Hname Hbefore.
    unfold clean_font_name. rewrite Hlist.
    apply strip_first_suffix_first; [|done..].
    apply style_suffix_nonempty. rewrite Hlist. apply elem_of_app. right. left.
  - intros suffix p Hin Hname Hothers.
    destruct (list_elem_of_split _ _ Hin) as (before & after & Hlist).
    assert (NoDup style_suffixes) as Hnd by (by apply (bool_decide_unpack _)).
    unfold clean_font_name. rewrite Hlist.
    apply strip_first_suffix_first; [by apply style_suffix_nonempty|done|].
    intros s Hs. apply Hothers; [rewrite Hlist; apply elem_of_app; by left|].
    intros ->. rewrite Hlist in Hnd.
    apply NoDup_app in Hnd as (_ & Hdisj & _). apply (Hdisj suffix Hs). left.
Qed.

Lemma clean_font_name_first_suffix_witness : clean_font_name "ArialBold" = "Arial".
Proof.
  apply (proj1 (proj2 (proj2 (clean_font_name_first_suffix "ArialBold"))) "Bold" "Arial").
  - unfold style_suffixes. repeat constructor.
  - reflexivity.
  - unfold style_suffixes. intros s Hs Hne p' Hp'.
    assert (endswith "ArialBold" s = true) as He by (apply endswith_spec; eauto).
    rewrite !elem_of_cons, elem_of_nil in Hs.
    destruct Hs as [->|[->|[->|[->|[->|[->|[]]]]]]]; try discriminate He; done.
Defined.

(** *** The cache file *)

Lemma as_names_dump (names : list string) : as_names (JArr (map JStr names)) = Some names.
Proof.
  simpl. induction names as [|n names IH]; [done|].
  simpl. by rewrite IH.
Qed.

Lemma foldl_insert (l : list (string * string)) (m0 : gmap string string) :
  foldl (fun m kv => <[fst kv := snd kv]> m) m0 l = list_to_map (reverse l) ∪ m0.
Proof.
  revert m0. induction l as [|[k v] l IH]; intros m0; simpl.
  - by rewrite (left_id_L ∅ (∪)).
  - rewrite IH, reverse_cons, list_to_map_app. simpl.
    rewrite <- (assoc_L (∪)), <- insert_union_l. by rewrite (left_id_L ∅ (∪)).
Qed.

Lemma foldl_insert_map_to_list (m : gmap string string) :
  foldl (fun acc kv => <[fst kv := snd kv]> acc) ∅ (map_to_list m) = m.
Proof.
  rewrite foldl_insert, (right_id_L ∅ (∪)).
  rewrite <- (list_to_map_to_list m) at 2.
  apply list_to_map_proper; [|apply reverse_Permutation].
  rewrite fmap_reverse, reverse_Permutation. apply NoDup_fst_map_to_list.
Qed.

Lemma as_paths_dump (paths : gmap string string) :
  as_paths (JObj (map (fun kv => (fst kv, JStr (snd kv))) (map_to_list paths)))
  = Some paths.
Proof.
  simpl. rewrite <- (foldl_insert_map_to_list paths) at 2.
  generalize (∅ : gmap string string). generalize (map_to_list paths).
  induction l as [|[k v] l IH]; intros m0; simpl; [done|]. apply IH.
Qed.

(** What [json.dump] wrote, [json.load] reads back. *)
Lemma load_dump (names : list string) (paths : gmap string string) :
  load (Document (dump_catalog names paths)) = CacheHit names paths.
Proof.
  unfold load, dump_catalog.
  change (obj_get "names" _) with (Some (JArr (map JStr names))).
  change (obj_get "paths" [("names", JArr (map JStr names)); ?p]) with (Some (snd p)).
  cbn [snd]. by rewrite as_names_dump, as_paths_dump.
Qed.

(** *** The scan *)

Abbreviation scan1 := (fun (a : scan_acc) (rf : string * string) => scan_file (fst rf) (snd rf) a).
Abbreviation is_font := (fun rf : string * string => is_font_file (snd rf) = true).
Abbreviation pairs_of := (fun entry : string * list string => map (fun file => (fst entry, file)) (snd entry)).
Abbreviation entries_of := (fun (walk : string -> option (list (string * list string))) (d : string) =>
  match walk d with Some es => es | None => [] end).

Lemma scan_root_pairs (acc : scan_acc) (entry : string * list string) :
  scan_root acc entry = foldl scan1 acc (pairs_of entry).
Proof.
  unfold scan_root. destruct entry as [root files]. simpl.
  revert acc. induction files as [|file files IH]; intros acc; simpl; [done|]. apply IH.
Qed.

Lemma scan_entries (acc : scan_acc) (entries : list (string * list string)) :
  foldl scan_root acc entries = foldl scan1 acc (flat_map pairs_of entries).
Proof.
  revert acc. induction entries as [|entry entries IH]; intros acc; [done|].
  cbn [foldl flat_map]. by rewrite foldl_app, IH, scan_root_pairs.
Qed.

Lemma scan_dirs (walk : string -> option (list (string * list string)))
    (acc : scan_acc) (font_dirs : list string) :
  foldl (scan_dir walk) acc font_dirs
  = foldl scan1 acc (flat_map pairs_of (flat_map (entries_of walk) font_dirs)).
Proof.
  revert acc. induction font_dirs as [|d font_dirs IH]; intros acc; [done|].
  cbn [foldl flat_map]. rewrite flat_map_app, foldl_app, IH. f_equal.
  unfold scan_dir. destruct (walk d); [apply scan_entries|done].
Qed.

(** Files that are not fonts leave the accumulators alone. *)
Lemma scan_fonts_only (acc : scan_acc) (l : list (string * string)) :
  foldl scan1 acc l = foldl scan1 acc (filter is_font l).
Proof.
  revert acc. induction l as [|rf l IH]; intros acc; [done|].
  rewrite filter_cons. destruct (decide (is_font rf)) as [Hf|Hf]; simpl.
  - apply IH.
  - rewrite IH. f_equal. unfold scan_file. destruct acc.
    by destruct (is_font_file (snd rf)).
Qed.

Lemma scan_visited (walk : string -> option (list (string * list string)))
    (font_dirs : list string) :
  foldl (scan_dir walk) (∅, []) font_dirs
  = foldl scan1 (∅, []) (visited_fonts walk font_dirs).
Proof. rewrite scan_dirs. apply scan_fonts_only. Qed.

(** One font file: its cleaned name is catalogued unless it is empty or taken. *)
Lemma scan_file_font (root file : string) (acc : scan_acc) :
  is_font_file file = true ->
  scan_file root file acc
  = if decide (cleaned_name file <> "" /\ fst acc !! cleaned_name file = None)
    then (<[cleaned_name file := PosixPath.join root file]> (fst acc),
          (snd acc ++ [cleaned_name file])%list)
    else acc.
Proof.
  intros Hf. unfold scan_file. destruct acc as [tp vf]. rewrite Hf. cbn [fst snd].
  destruct (String.eqb_spec (cleaned_name file) ""); simpl.
  - rewrite decide_False; [done|]. by intros [? _].
  - destruct (tp !! cleaned_name file) eqn:Hl.
    + rewrite bool_decide_eq_true_2 by eauto. simpl.
      rewrite decide_False; [done|]. by intros [_ ?].
    + rewrite bool_decide_eq_false_2 by (by intros [? ?]). simpl.
      by rewrite decide_True.
Qed.

(** The path kept for a name is the one that was there, or else that of the
    first font file with this cleaned name. *)
Lemma scan_lookup (fonts : list (string * string)) (acc : scan_acc) (n : string) :
  Forall is_font fonts ->
  fst (foldl scan1 acc fonts) !! n
  = fst acc !! n
    ∪ (if decide (n = "") then None
       else (fun ix => PosixPath.join (fst (snd ix)) (snd (snd ix)))
              <$> list_find (fun rf => cleaned_name (snd rf) = n) fonts).
Proof.
  intros Hfonts. revert acc.
  induction Hfonts as [|[root file] fonts Hf _ IH]; intros acc.
  - simpl. destruct (decide (n = "")); by rewrite (right_id_L None (∪)).
  - cbn [foldl]. rewrite IH. cbn [fst snd]. rewrite (scan_file_font root file acc Hf).
    cbn [list_find]. cbn [snd].
    destruct (decide (cleaned_name file = n)) as [<-|Hne].
    + destruct (decide (cleaned_name file <> "" /\ fst acc !! cleaned_name file = None))
        as [[Hnonempty Hfree]|Htaken].
      * cbn [fst]. rewrite lookup_insert_eq, Hfree.
        destruct (decide (cleaned_name file = "")); [done|].
        by rewrite union_Some_l, (left_id_L None (∪)).
      * destruct (decide (cleaned_name file = "")) as [He|He].
        { done. }
        destruct (fst acc !! cleaned_name file) eqn:Hl.
        -- by rewrite !union_Some_l.
        -- destruct Htaken. done.
    + destruct (decide (cleaned_name file <> "" /\ fst acc !! cleaned_name file = None));
        cbn [fst]; [rewrite lookup_insert_ne by done|];
        (f_equal; destruct (decide (n = "")); [done|];
         by destruct (list_find _ fonts) as [[i rf]|]).
Qed.

(** The names accepted are distinct and are the keys of the mapping. *)
Lemma scan_names (l : list (string * string)) (acc : scan_acc) :
  NoDup (snd acc) ->
  (forall n, n ∈ snd acc <-> is_Some (fst acc !! n)) ->
  NoDup (snd (foldl scan1 acc l))
  /\ (forall n, n ∈ snd (foldl scan1 acc l) <-> is_Some (fst (foldl scan1 acc l) !! n)).
Proof.
  revert acc. induction l as [|[root file] l IH]; intros acc Hnd Hkeys; [done|].
  cbn [foldl]. apply IH; cbn [fst snd]; unfold scan_file; destruct acc as [tp vf];
    cbn [fst snd] in *; destruct (is_font_file file); try done;
    destruct (String.eqb (cleaned_name file) ""); try done; cbn [negb andb];
    destruct (tp !! cleaned_name file) eqn:Hl.
  - rewrite bool_decide_eq_true_2 by eauto. done.
  - rewrite bool_decide_eq_false_2 by (by intros [? ?]). cbn [negb snd].
    apply NoDup_app. split_and!; [done| |apply NoDup_singleton].
    intros n Hn ->%list_elem_of_singleton. apply Hkeys in Hn as [? Hn]. congruence.
  - rewrite bool_decide_eq_true_2 by eauto. done.
  - rewrite bool_decide_eq_false_2 by (by intros [? ?]). cbn [negb fst snd].
    intros n. rewrite elem_of_app, list_elem_of_singleton, Hkeys.
    destruct (decide (n = cleaned_name file)) as [->|Hne].
    + rewrite lookup_insert_eq. split; eauto.
    + rewrite lookup_insert_ne by done. split; [|by left]. by intros [?|?].
Qed.

Lemma visited_fonts_are_fonts (walk : string -> option (list (string * list string)))
    (font_dirs : list string) :
  Forall is_font (visited_fonts walk font_dirs).
Proof.
  apply Forall_forall. intros rf Hrf. unfold visited_fonts in Hrf.
  by apply list_elem_of_filter in Hrf as [? _].
Qed.

Lemma scan_eq (walk : string -> option (list (string * list string)))
    (font_dirs : list string) :
  scan walk font_dirs
  = (sorted_set (snd (foldl scan1 (∅, []) (visited_fonts walk font_dirs))),
     fst (foldl scan1 (∅, []) (visited_fonts walk font_dirs))).
Proof.
  unfold scan. rewrite scan_visited. by destruct (foldl _ _ _).
Qed.

Lemma sorted_set_spec (names : list string) :
  Sorted String.le (sorted_set names)
  /\ NoDup (sorted_set names)
  /\ (forall n, n ∈ sorted_set names <-> n ∈ names)
  /\ (NoDup names -> length (sorted_set names) = length names).
Proof.
  unfold sorted_set. split_and!.
  - apply Sorted_merge_sort, _.
  - rewrite merge_sort_Permutation. apply NoDup_remove_dups.
  - intros n. by rewrite merge_sort_Permutation, elem_of_remove_dups.
  - intros Hnd. rewrite merge_sort_Permutation. apply Permutation_length.
    apply NoDup_Permutation; [apply NoDup_remove_dups|done|].
    intros n. apply elem_of_remove_dups.
Qed.

(** The first font file with a cleaned name gives the name its path. *)
Lemma scan_first_wins (before after : list (string * string)) (root file : string) :
  Forall is_font (before ++ (root, file) :: after) ->
  cleaned_name file <> "" ->
  (forall rf, rf ∈ before -> cleaned_name (snd rf) <> cleaned_name file) ->
  fst (foldl scan1 (∅, []) (before ++ (root, file) :: after)) !! cleaned_name file
  = Some (PosixPath.join root file).
Proof.
  intros Hfonts Hne Hbefore.
  rewrite (scan_lookup _ _ (cleaned_name file) Hfonts). cbn [fst].
  rewrite lookup_empty, (left_id_L None (∪)), decide_False by done.
  assert (list_find (fun rf => cleaned_name (snd rf) = cleaned_name file)
            (before ++ (root, file) :: after) = Some (length before, (root, file))) as ->.
  { apply list_find_Some. split_and!.
    - by rewrite list_lookup_middle.
    - done.
    - intros j rf Hj Hlt. apply Hbefore.
      rewrite lookup_app_l in Hj by done. by eapply list_elem_of_lookup_2. }
  done.
Qed.

Lemma scan_catalogued (fonts : list (string * string)) (n : string) :
  Forall is_font fonts ->
  is_Some (fst (foldl scan1 (∅, []) fonts) !! n)
  <-> n <> "" /\ exists rf, rf ∈ fonts /\ cleaned_name (snd rf) = n.
Proof.
  intros Hfonts. rewrite (scan_lookup _ _ n Hfonts). cbn [fst].
  rewrite lookup_empty, (left_id_L None (∪)).
  destruct (decide (n = "")) as [->|Hne].
  - split; [by intros ?%is_Some_None|by intros [? _]].
  - rewrite fmap_is_Some. split.
    + intros [[i rf] Hfind]. apply list_find_Some in Hfind as (Hi & Hrf & _).
      split; [done|]. exists rf. split; [|done]. by eapply list_elem_of_lookup_2.
    + intros [_ (rf & Hin & Hrf)].
      by apply (list_find_elem_of (fun rf => cleaned_name (snd rf) = n) fonts rf).
Qed.

(** [C8, amended] Scanning, saving and loading gives back the scanned catalog.
    Its name list is sorted and without duplicates and holds exactly the keys
    of the name-to-path mapping; a name is catalogued when it is not empty and
    is the cleaned name of some font file, and its path is that of the first
    such file visited.  So when the font files have distinct cleaned names,
    none of them empty, the catalog has one entry per font file: its name with
    its path.  (A font file whose cleaned name is empty is skipped.) *)
Theorem scan_save_load (walk : string -> option (list (string * list string)))
    (font_dirs : list string) (previous : cache_file) :
  let fonts := visited_fonts walk font_dirs in
  let names := fst (scan walk font_dirs) in
  let paths := snd (scan walk font_dirs) in
  load (save Saved names paths previous) = CacheHit names paths
  /\ Sorted String.le names
  /\ NoDup names
  /\ (forall n, n ∈ names <-> is_Some (paths !! n))
  /\ length names = size paths
  /\ (forall n, is_Some (paths !! n)
                <-> n <> "" /\ exists rf, rf ∈ fonts /\ cleaned_name (snd rf) = n)
  /\ (forall before root file after,
        fonts = (before ++ (root, file) :: after)%list ->
        cleaned_name file <> "" ->
        (forall rf, rf ∈ before -> cleaned_name (snd rf) <> cleaned_name file) ->
        paths !! cleaned_name file = Some (PosixPath.join root file))
  /\ (NoDup ((fun rf => cleaned_name (snd rf)) <$> fonts) ->
      (forall rf, rf ∈ fonts -> cleaned_name (snd rf) <> "") ->
      length names = length fonts
      /\ size paths = length fonts
      /\ forall root file, (root, file) ∈ fonts ->
           paths !! cleaned_name file = Some (PosixPath.join root file)).
Proof.
  intros fonts names paths. subst names paths. rewrite scan_eq. cbn [fst snd]. fold fonts.
  pose proof (visited_fonts_are_fonts walk font_dirs) as Hfonts. fold fonts in Hfonts.
  destruct (scan_names fonts (∅, [])) as [Hnd Hkeys].
  { constructor. }
  { intros n. cbn [fst snd]. rewrite lookup_empty, elem_of_nil. split; [done|].
    by intros ?%is_Some_None. }
  set (acc := foldl scan1 (∅, []) fonts) in *.
  destruct (sorted_set_spec (snd acc)) as (Hsorted & Hnd' & Helem & Hlen).
  assert (length (sorted_set (snd acc)) = size (fst acc)) as Hsize.
  { rewrite (Hlen Hnd), <- size_dom, <- (size_list_to_set (C := gset string)) by done.
    f_equal. apply set_eq. intros n.
    by rewrite elem_of_dom, elem_of_list_to_set, Hkeys. }
  assert (forall before root file after,
            fonts = (before ++ (root, file) :: after)%list ->
            cleaned_name file <> "" ->
            (forall rf, rf ∈ before -> cleaned_name (snd rf) <> cleaned_name file) ->
            fst acc !! cleaned_name file = Some (PosixPath.join root file)) as Hfirst.
  { intros before root file after Hsplit Hne Hbefore. subst acc.
    rewrite Hsplit in Hfonts |- *. by apply scan_first_wins. }
  split_and!; try done.
  - apply load_dump.
  - intros n. by rewrite Helem, Hkeys.
  - intros n. by apply scan_catalogued.
  - intros Hdistinct Hnonempty.
    assert (forall root file, (root, file) ∈ fonts ->
              fst acc !! cleaned_name file = Some (PosixPath.join root file)) as Hall.
    { intros root file Hin.
      destruct (list_elem_of_split _ _ Hin) as (before & after & Hsplit).
      apply (Hfirst before root file after Hsplit); [by apply (Hnonempty (root, file))|].
      intros rf Hrf Heq. rewrite Hsplit, fmap_app, fmap_cons in Hdistinct.
      apply NoDup_app in Hdistinct as (_ & Hdisj & _).
      apply (Hdisj (cleaned_name (snd rf))).
      - by apply (list_elem_of_fmap_2 (fun rf => cleaned_name (snd rf))).
      - rewrite Heq. left. }
    assert (length (snd acc) = length fonts) as Hcount.
    { rewrite <- (length_fmap (fun rf => cleaned_name (snd rf)) fonts).
      apply Permutation_length, NoDup_Permutation; [done..|].
      intros n. rewrite Hkeys. subst acc. rewrite (scan_catalogued fonts n Hfonts).
      rewrite list_elem_of_fmap. split.
      - intros [_ (rf & Hin & <-)]. eauto.
      - intros (rf & -> & Hin). split; [by apply Hnonempty|eauto]. }
    split_and!.
    + by rewrite (Hlen Hnd).
    + by rewrite <- Hsize, (Hlen Hnd).
    + exact Hall.
Qed.

(** Once the cache file is written, the next start of the scan thread loads
    the same catalog from it, whatever the font directories hold by then. *)
Lemma scan_thread_restart (walk walk' : string -> option (list (string * list string)))
    (font_dirs font_dirs' : list string) (outcome' : save_outcome) (previous : cache_file) :
  load previous = CacheMiss ->
  let first := _scan_fonts_thread walk font_dirs Saved previous in
  fst first = Catalog (scan walk font_dirs)
  /\ _scan_fonts_thread walk' font_dirs' outcome' (snd first) = first.
Proof.
  intros Hmiss. unfold _scan_fonts_thread at 1 2. rewrite Hmiss.
  destruct (scan walk font_dirs) as [names paths]. cbn [fst snd save].
  split; [done|]. unfold _scan_fonts_thread. by rewrite load_dump.
Qed.

Lemma scan_save_load_witness :
  length (fst (scan Demo.walk_distinct Demo.font_dirs)) = 2
  /\ snd (scan Demo.walk_distinct Demo.font_dirs) !! "Lato"
     = Some "/usr/share/fonts/lato/Lato-Bold.TTF".
Proof.
  destruct (scan_save_load Demo.walk_distinct Demo.font_dirs Absent)
    as (_ & _ & _ & _ & _ & _ & _ & Hdistinct).
  destruct Hdistinct as (Hlen & _ & Hpaths).
  - by apply (bool_decide_unpack _).
  - apply Forall_forall. by apply (bool_decide_unpack _).
  - split; [exact Hlen|].
    apply (Hpaths "/usr/share/fonts/lato" "Lato-Bold.TTF"). by apply (bool_decide_unpack _).
Defined.

(** [C8, as stated] fails: two font files with the distinct cleaned names
    "Arial" and "" give a catalog of one entry, because the scan skips a font
    file whose cleaned name is empty. *)
Lemma scan_skips_empty_cleaned_name :
  let fonts := visited_fonts Demo.walk_style_only Demo.font_dirs in
  let names := fst (scan Demo.walk_style_only Demo.font_dirs) in
  let paths := snd (scan Demo.walk_style_only Demo.font_dirs) in
  ((fun rf => cleaned_name (snd rf)) <$> fonts) = ["Arial"; ""]
  /\ NoDup ((fun rf => cleaned_name (snd rf)) <$> fonts)
  /\ load (save Saved names paths Absent) = CacheHit names paths
  /\ names = ["Arial"]
  /\ size paths = 1.
Proof.
  split_and!.
  - by vm_compute.
  - by apply (bool_decide_unpack _).
  - apply load_dump.
  - by vm_compute.
  - by vm_compute.
Qed.

End FontCatalogFacts.

(** ** Font object cache *)

Module FontObjectCacheFacts.
Import FontObjectCache.

Section WithPillow.
Context {Font : Type}.
Variable truetype : string -> Z -> option Font.
Variable load_default : Font.

(** A second lookup returns the same handle and changes nothing. *)
Lemma get_font_object_again (size : Z) (st : App Font) :
  let r := get_font_object truetype load_default size st in
  get_font_object truetype load_default size (snd r) = r.
Proof.
  unfold get_font_object.
  destruct (_font_obj_cache st !! (font_family_var st, size)) as [cached|] eqn:Hc.
  { simpl. by rewrite Hc. }
  destruct (font_paths st !! font_family_var st) as [path|] eqn:Hp.
  2:{ simpl. by rewrite Hc, Hp. }
  destruct (truetype path size) as [font|] eqn:Ht.
  2:{ simpl. by rewrite Hc, Hp, Ht. }
  simpl. by rewrite lookup_insert_eq.
Qed.

(** A lookup changes at most the font object cache. *)
Lemma get_font_object_frame (size : Z) (st : App Font) :
  let st' := snd (get_font_object truetype load_default size st) in
  set_font_obj_cache (_font_obj_cache st') st = st'.
Proof.
  unfold get_font_object.
  destruct (_font_obj_cache st !! (font_family_var st, size)); [by destruct st|].
  destruct (font_paths st !! font_family_var st); [|by destruct st].
  destruct (truetype _ size); by destruct st.
Qed.

(** [C10, amended] When the requested font name is not in the catalog, the
    lookup returns the handle memoized for (name, size) if there is one and
    the built-in default font otherwise; it always returns, and it adds no
    entry to the font object cache (the state is unchanged). *)
Theorem get_font_object_catalog_miss (size : Z) (st : App Font) :
  font_paths st !! font_family_var st = None ->
  get_font_object truetype load_default size st
  = (match _font_obj_cache st !! (font_family_var st, size) with
     | Some cached => cached
     | None => load_default
     end, st).
Proof.
  intros Hmiss. unfold get_font_object. rewrite Hmiss.
  by destruct (_font_obj_cache st !! (font_family_var st, size)).
Qed.
End WithPillow.

Lemma get_font_object_catalog_miss_witness :
  get_font_object Demo.truetype Demo.Default 50 initial_app = (Demo.Default, initial_app).
Proof.
  apply (get_font_object_catalog_miss Demo.truetype Demo.Default 50 initial_app).
  reflexivity.
Defined.

(** [C10, as stated] fails: select a font, render at 50 px (the handle is
    memoized), press Rescan (the catalog is emptied while the scan runs) and
    render again: the name is not in the catalog, yet the lookup returns the
    memoized handle, not the default font. *)
Lemma get_font_object_catalog_miss_memoized :
  let st1 := snd (get_font_object Demo.truetype Demo.Default 50 Demo.scanned_app) in
  let st2 := rescan_fonts_action st1 in
  font_paths st2 !! font_family_var st2 = None
  /\ fst (get_font_object Demo.truetype Demo.Default 50 st2)
     = Demo.Loaded "/usr/share/fonts/calibri.ttf" 50
  /\ fst (get_font_object Demo.truetype Demo.Default 50 st2) <> Demo.Default.
Proof. vm_compute. repeat split; discriminate. Qed.

End FontObjectCacheFacts.

(** ** Layout engine *)

Module LayoutEngineFacts.
Import PyStr LayoutEngine.
Local Open Scope Z_scope.

Section WithPillow.
Context {Font : Type}.
Variable truetype : string -> Z -> option Font.
Variable load_default : Font.
Variable textbbox : Font -> string -> string -> Z -> Z * Z * Z * Z.

Abbreviation color_pass := (create_text_image_pil truetype load_default textbbox).
Abbreviation mask_pass := (create_mask_image textbbox).

(** With a font supplied, as on every call path, the colour pass leaves the
    application state alone. *)
Lemma create_text_image_pil_state (text : string) (size font_size : Z) (font_obj : Font)
    (alignment position : string) (padding line_spacing : Z) (st : App Font) :
  snd (color_pass text size font_size (Some font_obj) alignment position padding
         line_spacing st) = st.
Proof.
  unfold create_text_image_pil.
  by destruct (textbbox font_obj text (lower alignment) line_spacing) as [[[? ?] ?] ?].
Qed.

(** [C1] In the colour pass and in the mask pass alike, with the measured box
    [(left, top, right, bottom)], [w = right - left] and [h = bottom - top],
    the text is drawn at [(x, y)] where [x] is [padding - left] if the
    lower-cased anchor contains "left", else [size - w - left - padding] if
    it contains "right", else [(size - w) / 2 - left]; and [y] is
    [padding - top] for "top", else [size - h - top - padding] for "bottom",
    else [(size - h) / 2 - top]. *)
Theorem draw_origin_by_anchor (st : App Font) (text : string) (size font_size : Z)
    (font_obj : Font) (alignment position : string) (padding line_spacing : Z)
    (left_ top_ right_ bottom_ : Z) :
  textbbox font_obj text (lower alignment) line_spacing = (left_, top_, right_, bottom_) ->
  let w := right_ - left_ in
  let h := bottom_ - top_ in
  let pos := lower position in
  exists x y,
    draw_origin (fst (color_pass text size font_size (Some font_obj) alignment position
                        padding line_spacing st)) = Some (x, y)
    /\ draw_origin (mask_pass text size font_obj alignment position padding
                      line_spacing st) = Some (x, y)
    /\ (contains "left" pos = true -> x = padding - left_)
    /\ (contains "left" pos = false -> contains "right" pos = true ->
        x = size - w - left_ - padding)
    /\ (contains "left" pos = false -> contains "right" pos = false ->
        x = (size - w) / 2 - left_)
    /\ (contains "top" pos = true -> y = padding - top_)
    /\ (contains "top" pos = false -> contains "bottom" pos = true ->
        y = size - h - top_ - padding)
    /\ (contains "top" pos = false -> contains "bottom" pos = false ->
        y = (size - h) / 2 - top_)
    /\ (position = "Top Left" -> size = 512 -> padding = 20 ->
        (x, y) = (20 - left_, 20 - top_))
    /\ (position = "Bottom Right" -> size = 512 -> padding = 20 ->
        (x, y) = (512 - w - left_ - 20, 512 - h - top_ - 20)).
Proof.
  intros Hbox w h pos.
  unfold create_text_image_pil, create_mask_image. rewrite Hbox.
  fold w h pos. eexists _, _.
  split; [by destruct (outline_enabled st)|]. split; [done|].
  repeat split.
  - by intros ->.
  - by intros -> ->.
  - by intros -> ->.
  - by intros ->.
  - by intros -> ->.
  - by intros -> ->.
  - intros Hp -> ->. subst pos. by rewrite Hp.
  - intros Hp -> ->. subst pos. by rewrite Hp.
Qed.

(** [C3] The bitmaps are a function of the request and the font: rendering a
    request again, in the state the first render left, gives the same colour
    image and changes nothing; a render changes at most the font object
    cache, and nothing at all when it is given its font; two application
    states that agree on the outline settings and the colours give the same
    colour image and the same mask. *)
Theorem render_is_function_of_request (st : App Font) (text : string)
    (size font_size : Z) (font_opt : option Font) (alignment position : string)
    (padding line_spacing : Z) :
  let first :=
    color_pass text size font_size font_opt alignment position padding line_spacing st in
  let second :=
    color_pass text size font_size font_opt alignment position padding line_spacing
      (snd first) in
  second = first
  /\ set_font_obj_cache (_font_obj_cache (snd first)) st = snd first
  /\ (forall font_obj, font_opt = Some font_obj -> snd first = st)
  /\ (forall st2 font_obj,
        outline_enabled st2 = outline_enabled st ->
        outline_width_var st2 = outline_width_var st ->
        text_color_rgb st2 = text_color_rgb st ->
        outline_color_rgb st2 = outline_color_rgb st ->
        fst (color_pass text size font_size (Some font_obj) alignment position padding
               line_spacing st2)
        = fst (color_pass text size font_size (Some font_obj) alignment position padding
                 line_spacing st)
        /\ mask_pass text size font_obj alignment position padding line_spacing st2
           = mask_pass text size font_obj alignment position padding line_spacing st).
Proof.
  cbv zeta. split_and!.
  - unfold create_text_image_pil. destruct font_opt as [f|].
    + by destruct (textbbox f text (lower alignment) line_spacing) as [[[? ?] ?] ?].
    + pose proof (FontObjectCacheFacts.get_font_object_again truetype load_default
                    font_size st) as Hagain.
      pose proof (FontObjectCacheFacts.get_font_object_frame truetype load_default
                    font_size st) as Hframe.
      cbv zeta in Hagain, Hframe.
      destruct (FontObjectCache.get_font_object truetype load_default font_size st)
        as [f st'] eqn:Hget.
      simpl in Hagain, Hframe.
      destruct (textbbox f text (lower alignment) line_spacing) as [[[l t] r] b] eqn:Hbox.
      simpl. rewrite Hagain, Hbox. done.
  - unfold create_text_image_pil. destruct font_opt as [f|].
    + destruct (textbbox f text (lower alignment) line_spacing) as [[[? ?] ?] ?].
      by destruct st.
    + pose proof (FontObjectCacheFacts.get_font_object_frame truetype load_default
                    font_size st) as Hframe.
      cbv zeta in Hframe.
      destruct (FontObjectCache.get_font_object truetype load_default font_size st)
        as [f st'].
      by destruct (textbbox f text (lower alignment) line_spacing) as [[[? ?] ?] ?].
  - intros font_obj ->. apply create_text_image_pil_state.
  - intros st2 font_obj Henabled Hwidth Htext Houtline. split.
    + unfold create_text_image_pil.
      destruct (textbbox font_obj text (lower alignment) line_spacing) as [[[? ?] ?] ?].
      simpl. by rewrite Henabled, Hwidth, Htext, Houtline.
    + unfold create_mask_image.
      destruct (textbbox font_obj text (lower alignment) line_spacing) as [[[? ?] ?] ?].
      by rewrite Henabled, Hwidth.
Qed.
End WithPillow.

Lemma draw_origin_by_anchor_witness :
  draw_origin
    (create_mask_image Demo.textbbox "Hi" 512 Demo.Default "Center" "Top Left" 20 4
       initial_app) = Some (19, 18).
Proof.
  destruct (draw_origin_by_anchor Demo.truetype Demo.Default Demo.textbbox initial_app
              "Hi" 512 50 Demo.Default "Center" "Top Left" 20 4 1 2 21 22 eq_refl)
    as (x & y & _ & Hmask & Hx & _ & _ & Hy & _).
  rewrite Hmask, (Hx eq_refl), (Hy eq_refl). reflexivity.
Defined.

Lemma render_is_function_of_request_witness :
  snd (create_text_image_pil Demo.truetype Demo.Default Demo.textbbox "Hi" 512 50
         (Some Demo.Default) "Center" "Center" 20 4 initial_app) = initial_app.
Proof.
  exact (proj1 (proj2 (proj2 (render_is_function_of_request Demo.truetype Demo.Default
                                Demo.textbbox initial_app "Hi" 512 50 (Some Demo.Default)
                                "Center" "Center" 20 4)))
           Demo.Default eq_refl).
Defined.

End LayoutEngineFacts.

(** ** Preview scheduler *)

Module PreviewSchedulerFacts.
Import PyStr LayoutEngine PreviewScheduler.
Local Open Scope Z_scope.

Section WithPillow.
Context {Font : Type}.
Variable truetype : string -> Z -> option Font.
Variable load_default : Font.
Variable textbbox : Font -> string -> string -> Z -> Z * Z * Z * Z.

Abbreviation step' := (step truetype load_default textbbox).
Abbreviation run' := (run truetype load_default textbbox).
Abbreviation launcher := (update_preview_thread_launcher truetype load_default).

Lemma get_font_object_req_id (size : Z) (st : App Font) :
  preview_req_id (snd (FontObjectCache.get_font_object truetype load_default size st))
  = preview_req_id st.
Proof.
  rewrite <- (FontObjectCacheFacts.get_font_object_frame truetype load_default size st).
  done.
Qed.

(** The launcher increments the counter, and what it submits carries the new
    value. *)
Lemma launcher_tags (panel : option (Z * Z)) (s : Session Font) :
  let s' := launcher panel s in
  preview_req_id (app s') = preview_req_id (app s) + 1
  /\ after_queue s' = after_queue s
  /\ applied_req_ids s' = applied_req_ids s
  /\ preview_image_ref s' = preview_image_ref s
  /\ match panel with
     | None => executor_queue s' = executor_queue s
     | Some _ =>
         exists job, executor_queue s' = (executor_queue s ++ [job])%list
                     /\ job_req_id job = preview_req_id (app s) + 1
     end.
Proof.
  unfold update_preview_thread_launcher.
  pose proof (get_font_object_req_id (font_size_var (app s))
                (set_preview_req_id (preview_req_id (app s) + 1) (app s))) as Hid.
  destruct (FontObjectCache.get_font_object _ _ _ _) as [font_obj st'].
  simpl in Hid. destruct panel as [[width height]|]; simpl; split_and!; try done.
  eexists. split; [done|]. done.
Qed.

(** The worker changes the queue of rendered frames and the checkerboard
    cache only; the frame it adds carries the tag of its job and the text
    layer rendered from the job. *)
Lemma threaded_render_frame (job : render_job Font) (ok : bool) (s : Session Font) :
  let s' := _threaded_render truetype load_default textbbox job ok s in
  app s' = app s
  /\ executor_queue s' = executor_queue s
  /\ preview_image_ref s' = preview_image_ref s
  /\ applied_req_ids s' = applied_req_ids s
  /\ (after_queue s' = after_queue s
      \/ exists img d,
           after_queue s' = (after_queue s ++ [mkFrame img d (job_req_id job)])%list
           /\ pv_text_layer img
              = fst (create_text_image_pil truetype load_default textbbox
                       (job_text job) (job_size job) (job_font_size job)
                       (Some (job_font_obj job)) (job_alignment job) (job_position job)
                       (job_padding job) (job_line_spacing job) (app s))).
Proof.
  unfold _threaded_render. destruct ok; cbn [negb]; [|split_and!; auto].
  destruct (Checkerboard.get_cached_checkerboard _ _ _) as [[bg cache]|];
    [|split_and!; auto].
  destruct (display_size _ _ _) as [d|]; cbn [app executor_queue after_queue
    preview_image_ref applied_req_ids]; split_and!; auto.
  right. eexists _, _. split; reflexivity.
Qed.

Lemma step_well_tagged (s : Session Font) (e : event) :
  well_tagged s -> well_tagged (step' s e).
Proof.
  intros (Hq & Ha & Hl & Hs). destruct e as [panel|i ok|i ok|t]; simpl.
  - destruct (launcher_tags panel s) as (Hc & Ha' & Hl' & _ & Hq').
    unfold well_tagged. rewrite Hc, Ha', Hl'. split_and!; try done.
    + destruct panel as [p|].
      * destruct Hq' as (job & -> & Hjob). apply Forall_app. split.
        -- eapply Forall_impl; [exact Hq|]. simpl. intros; lia.
        -- apply Forall_singleton. lia.
      * rewrite Hq'. eapply Forall_impl; [exact Hq|]. simpl. intros; lia.
    + eapply Forall_impl; [exact Ha|]. simpl. intros; lia.
    + eapply Forall_impl; [exact Hl|]. simpl. intros; lia.
  - destruct (executor_queue s !! i) as [job|] eqn:Hjob; [|done].
    assert (Forall (fun job => job_req_id job <= preview_req_id (app s))
              (delete i (executor_queue s))) as Hq'.
    { eapply Forall_forall. intros j Hj%list_elem_of_delete_inv.
      by eapply Forall_forall in Hq. }
    destruct (threaded_render_frame job ok
                (mkSession (app s) (delete i (executor_queue s)) (after_queue s)
                   (preview_image_ref s) (applied_req_ids s) (_checkerboard_cache s)))
      as (Happ & Hexec & _ & Hids & Hafter).
    cbn [app executor_queue after_queue preview_image_ref applied_req_ids] in *.
    unfold well_tagged. rewrite Happ, Hexec, Hids. split_and!; try done.
    destruct Hafter as [->|(img & d & -> & _)]; [done|].
    apply Forall_app. split; [done|]. apply Forall_singleton. simpl.
    eapply Forall_forall in Hq; [exact Hq|]. by eapply list_elem_of_lookup_2.
  - destruct (after_queue s !! i) as [f|] eqn:Hf; [|done].
    assert (Forall (fun f => frame_req_id f <= preview_req_id (app s))
              (delete i (after_queue s))) as Ha'.
    { eapply Forall_forall. intros j Hj%list_elem_of_delete_inv.
      by eapply Forall_forall in Ha. }
    unfold _apply_preview. simpl.
    destruct (frame_req_id f =? preview_req_id (app s)) eqn:Heq; simpl; [|done].
    destruct ok; simpl; [|done].
    apply Z.eqb_eq in Heq. split_and!; try done.
    + constructor; [simpl; lia|done].
    + constructor; [done|]. by rewrite Heq.
  - done.
Qed.

Lemma run_well_tagged (es : list event) : well_tagged (run' es initial_session).
Proof.
  induction es as [|e es IH] using rev_ind.
  - split_and!; constructor.
  - unfold run. rewrite foldl_snoc. by apply step_well_tagged.
Qed.

(** [C2] In every run of the scheduler: a render is submitted with the value
    of the counter just incremented, and nothing else changes the counter; a
    frame is put on display only by the callback of a frame whose tag equals
    the counter at that moment, any other completed frame is dropped and the
    display is left as it is; hence the tags of the frames displayed never
    decrease. *)
Theorem stale_results_discarded (es : list event) (e : event) :
  let s := run' es initial_session in
  let s' := step' s e in
  (forall panel, e = TimerFires panel ->
     preview_req_id (app s') = preview_req_id (app s) + 1
     /\ applied_req_ids s' = applied_req_ids s
     /\ (executor_queue s' = executor_queue s
         \/ exists job, executor_queue s' = (executor_queue s ++ [job])%list
                        /\ job_req_id job = preview_req_id (app s')))
  /\ ((forall panel, e <> TimerFires panel) ->
      preview_req_id (app s') = preview_req_id (app s))
  /\ (forall i ok job, e = WorkerRuns i ok -> executor_queue s !! i = Some job ->
        after_queue s' = after_queue s
        \/ exists img d,
             after_queue s' = (after_queue s ++ [mkFrame img d (job_req_id job)])%list)
  /\ ((applied_req_ids s' = applied_req_ids s /\ preview_image_ref s' = preview_image_ref s)
      \/ exists i f, e = TkRuns i true /\ after_queue s !! i = Some f
                     /\ frame_req_id f = preview_req_id (app s)
                     /\ applied_req_ids s' = frame_req_id f :: applied_req_ids s
                     /\ preview_image_ref s'
                        = Some (mkCTkImage (frame_image f)
                                  (frame_display_size f, frame_display_size f)))
  /\ StronglySorted (fun newer older => older <= newer) (applied_req_ids s').
Proof.
  intros s s'. split_and!.
  - intros panel ->. subst s'. simpl.
    destruct (launcher_tags panel s) as (Hc & _ & Hl & _ & Hq).
    split_and!; [done..|].
    destruct panel; [right|left; done].
    destruct Hq as (job & ? & ?). exists job. split; [done|]. by rewrite Hc.
  - intros Hne. subst s'. destruct e as [panel|i ok|i ok|t]; simpl.
    + by destruct (Hne panel).
    + destruct (executor_queue s !! i) as [job|]; [|done].
      by destruct (threaded_render_frame job ok
                     (mkSession (app s) (delete i (executor_queue s)) (after_queue s)
                        (preview_image_ref s) (applied_req_ids s) (_checkerboard_cache s)))
        as (-> & _).
    + destruct (after_queue s !! i); [|done].
      unfold _apply_preview. simpl. by destruct (negb _), ok.
    + done.
  - intros i ok job -> Hjob. subst s'. simpl. rewrite Hjob.
    destruct (threaded_render_frame job ok
                (mkSession (app s) (delete i (executor_queue s)) (after_queue s)
                   (preview_image_ref s) (applied_req_ids s) (_checkerboard_cache s)))
      as (_ & _ & _ & _ & [Hafter|(img & d & Hafter & _)]); [by left|right; eauto].
  - subst s'. destruct e as [panel|i ok|i ok|t]; simpl.
    + left. destruct (launcher_tags panel s) as (_ & _ & ? & ? & _). done.
    + left. destruct (executor_queue s !! i) as [job|]; [|done].
      by destruct (threaded_render_frame job ok
                     (mkSession (app s) (delete i (executor_queue s)) (after_queue s)
                        (preview_image_ref s) (applied_req_ids s) (_checkerboard_cache s)))
        as (_ & _ & -> & -> & _).
    + destruct (after_queue s !! i) as [f|] eqn:Hf; [|by left].
      unfold _apply_preview. simpl.
      destruct (frame_req_id f =? preview_req_id (app s)) eqn:Heq; simpl; [|by left].
      destruct ok; simpl; [|by left].
      right. exists i, f. apply Z.eqb_eq in Heq. done.
    + by left.
  - apply (step_well_tagged s e). apply run_well_tagged.
Qed.
End WithPillow.

(** Render 1 is submitted, then render 2; both complete; the frame of render 2
    is applied first and the frame of render 1 is then dropped. *)
Example stale_frame_dropped :
  applied_req_ids
    (run Demo.truetype Demo.Default Demo.textbbox
       [TimerFires (Some (800, 700)); TimerFires (Some (800, 700));
        WorkerRuns 0 true; WorkerRuns 0 true; TkRuns 1 true; TkRuns 0 true]
       initial_session) = [2].
Proof. vm_compute. reflexivity. Qed.

Lemma stale_results_discarded_witness :
  let s := run Demo.truetype Demo.Default Demo.textbbox
             [TimerFires (Some (800, 700)); TimerFires (Some (800, 700));
              WorkerRuns 0 true; WorkerRuns 0 true; TkRuns 1 true]
             initial_session in
  let s' := step Demo.truetype Demo.Default Demo.textbbox s (TkRuns 0 true) in
  preview_req_id (app s') = preview_req_id (app s)
  /\ StronglySorted (fun newer older => older <= newer) (applied_req_ids s').
Proof.
  destruct (stale_results_discarded Demo.truetype Demo.Default Demo.textbbox
              [TimerFires (Some (800, 700)); TimerFires (Some (800, 700));
               WorkerRuns 0 true; WorkerRuns 0 true; TkRuns 1 true]
              (TkRuns 0 true)) as (_ & Hcounter & _ & _ & Hsorted).
  split; [apply Hcounter; discriminate|exact Hsorted].
Defined.

End PreviewSchedulerFacts.

(** ** Paths *)

Module PosixPathFacts.
Import PyStr PyStrFacts PosixPath.
#[local] Arguments String.append !_ _ / : simpl nomatch.

Lemma app_inj_length (p p' q q' : string) :
  p +:+ q = p' +:+ q' -> String.length p = String.length p' -> p = p' /\ q = q'.
Proof.
  revert p'. induction p as [|a p IH]; intros [|a' p']; simpl; try done.
  intros [= -> H] [= Hlen]. destruct (IH _ H Hlen) as [-> ->]. done.
Qed.

Lemma after_last_sep_app (p file : string) :
  rfind "/" file = None ->
  after_last_sep (p +:+ "/" +:+ file) = String.length (p +:+ "/").
Proof.
  intros Hfile. unfold after_last_sep.
  change ("/" +:+ file) with (String "/" file).
  rewrite (rfind_last "/" p file Hfile), length_app. simpl. lia.
Qed.

Lemma basename_last_segment (p file : string) :
  contains "/" file = false -> basename (p +:+ "/" +:+ file) = file.
Proof.
  intros Hfile%rfind_None. unfold basename.
  rewrite (after_last_sep_app p file Hfile), <- app_assoc.
  apply drop_app_length.
Qed.

Lemma dirname_strip (p : string) (a : ascii) (file : string) :
  a <> "/"%char -> contains "/" file = false ->
  dirname ((p +:+ String a "") +:+ "/" +:+ file) = p +:+ String a "".
Proof.
  intros Ha Hfile%rfind_None. unfold dirname.
  rewrite (after_last_sep_app _ file Hfile), <- app_assoc, take_app_length.
  assert (all_char "/" ((p +:+ String a "") +:+ "/") = false) as ->.
  { rewrite !all_char_app. simpl. apply Ascii.eqb_neq in Ha. rewrite Ha.
    by rewrite !andb_false_r. }
  assert ((p +:+ String a "") +:+ "/" <> "") as Hnil.
  { intros E. apply (f_equal String.length) in E. rewrite !length_app in E.
    simpl in E. lia. }
  apply String.eqb_neq in Hnil. rewrite Hnil. cbn [negb andb].
  rewrite rstrip_snoc_eq. by apply rstrip_snoc_ne.
Qed.

(** The last two segments of a path. *)
Lemma last_two_segments (dir parent file : string) :
  parent <> "" -> contains "/" parent = false -> contains "/" file = false ->
  basename (dirname (dir +:+ "/" +:+ parent +:+ "/" +:+ file)) = parent
  /\ basename (dir +:+ "/" +:+ parent +:+ "/" +:+ file) = file.
Proof.
  intros Hne Hparent Hfile.
  destruct (snoc_inv parent Hne) as (parent' & a & ->).
  assert (a <> "/"%char) as Ha.
  { intros ->. apply rfind_None in Hparent.
    apply rfind_app_None in Hparent as [_ Hparent]. simpl in Hparent. discriminate. }
  split.
  - rewrite <- (app_assoc dir "/"), <- (app_assoc _ (parent' +:+ String a "")).
    rewrite <- (app_assoc (dir +:+ "/") parent').
    rewrite dirname_strip by done.
    rewrite !app_assoc. by apply basename_last_segment.
  - rewrite <- (app_assoc dir "/"), <- (app_assoc _ (parent' +:+ String a "")).
    by apply basename_last_segment.
Qed.

Example posix_paths :
  basename "/home/user/out/a_color.png" = "a_color.png"
  /\ dirname "/home/user/out/a_color.png" = "/home/user/out"
  /\ dirname "/a.png" = "/"
  /\ basename (dirname "/a.png") = ""
  /\ join "/out" "3" = "/out/3"
  /\ join "/out/" "3" = "/out/3"
  /\ splitext "Lato-Bold.ttf" = ("Lato-Bold", ".ttf")
  /\ splitext ".ttf" = (".ttf", "")
  /\ splitext "a.b/c" = ("a.b/c", "").
Proof. repeat split; reflexivity. Qed.

End PosixPathFacts.

(** ** Export pipeline *)

Module ExportPipelineFacts.
Import PyStr PyStrFacts PosixPath PosixPathFacts LayoutEngine ExportPipeline.

(** [C6] With the separators of the path normalized to "/": if the path has a
    directory segment "materials" (it contains "/materials/"), the reference is
    the path from the first such segment on; if it has none, the reference is
    "materials/<parent>/<filename>" with the directory name and the base name
    of [os.path], which are the last two segments of the path. *)
Theorem relative_texture_path_spec (absolute_path : string) :
  let normalized :=
    map_chars (fun a => if Ascii.eqb a "\" then "/"%char else a) absolute_path in
  (forall before rest,
     normalized = before +:+ "/materials/" +:+ rest ->
     (forall before' rest', normalized = before' +:+ "/materials/" +:+ rest' ->
                            String.length before <= String.length before') ->
     get_relative_texture_path absolute_path = "materials/" +:+ rest)
  /\ ((forall before rest, normalized <> before +:+ "/materials/" +:+ rest) ->
      get_relative_texture_path absolute_path
      = "materials/" +:+ basename (dirname normalized) +:+ "/" +:+ basename normalized)
  /\ (forall dir parent filename,
        (forall before rest, normalized <> before +:+ "/materials/" +:+ rest) ->
        normalized = dir +:+ "/" +:+ parent +:+ "/" +:+ filename ->
        parent <> "" -> contains "/" parent = false -> contains "/" filename = false ->
        get_relative_texture_path absolute_path
        = "materials/" +:+ parent +:+ "/" +:+ filename).
Proof.
  intros normalized.
  assert (replace "\" "/" absolute_path = normalized) as Hnorm by apply replace_char.
  assert ((forall before rest, normalized <> before +:+ "/materials/" +:+ rest) ->
          get_relative_texture_path absolute_path
          = "materials/" +:+ basename (dirname normalized) +:+ "/" +:+ basename normalized)
    as Hfallback.
  { intros Hnone. unfold get_relative_texture_path. rewrite Hnorm.
    destruct (contains "/materials/" normalized) eqn:Hc; [|done].
    apply contains_spec in Hc as (pre & post & Hc). by destruct (Hnone pre post). }
  split_and!.
  - intros before rest Hsplit Hfirst.
    unfold get_relative_texture_path. rewrite Hnorm.
    assert (contains "/materials/" normalized = true) as Hc.
    { apply contains_spec. eauto. }
    rewrite Hc.
    destruct (split_first_contains _ _ Hc) as [[p q] Hpq]. rewrite Hpq.
    apply split_first_spec in Hpq as [Heq Hmin].
    assert (String.length p = String.length before) as Hlen.
    { apply Nat.le_antisymm; [by apply (Hmin before rest)|by apply (Hfirst p q)]. }
    rewrite Hsplit in Heq.
    destruct (app_inj_length _ _ _ _ Heq (eq_sym Hlen)) as [_ Hrest].
    apply (String.app_inj "/materials/") in Hrest. by rewrite Hrest.
  - exact Hfallback.
  - intros dir parent filename Hnone Hsegs Hne Hparent Hfile.
    rewrite (Hfallback Hnone), Hsegs.
    destruct (last_two_segments dir parent filename Hne Hparent Hfile) as [-> ->].
    done.
Qed.

Lemma relative_texture_path_spec_witness :
  get_relative_texture_path "C:\game\content\materials\signs\a_color.png"
  = "materials/signs/a_color.png"
  /\ get_relative_texture_path "/home/user/out/a_color.png" = "materials/out/a_color.png".
Proof.
  split.
  - apply (proj1 (relative_texture_path_spec _) "C:/game/content" "signs/a_color.png").
    + reflexivity.
    + intros before' rest' H.
      destruct (le_lt_dec (String.length "C:/game/content") (String.length before'))
        as [Hle|Hlt]; [exact Hle|].
      exfalso. apply (f_equal (take 26)) in H.
      do 15 (destruct before' as [|? before']; [discriminate H|]).
      simpl in Hlt. lia.
  - apply (proj2 (proj2 (relative_texture_path_spec _)) "/home/user" "out" "a_color.png").
    + intros before rest H.
      assert (contains "/materials/" "/home/user/out/a_color.png" = true) as Hc.
      { apply contains_spec. exists before, rest. exact H. }
      discriminate Hc.
    + reflexivity.
    + discriminate.
    + reflexivity.
    + reflexivity.
Defined.

Section WithPillow.
Context {Font : Type}.
Variable truetype : string -> Z -> option Font.
Variable load_default : Font.
Variable textbbox : Font -> string -> string -> Z -> Z * Z * Z * Z.
Variable abspath : string -> string.
Variable write_error : string -> option string.

Abbreviation perform_save :=
  (_perform_save truetype load_default textbbox abspath write_error).
Abbreviation perform_batch :=
  (_perform_batch truetype load_default textbbox abspath write_error).
Abbreviation item := (batch_item truetype load_default textbbox abspath write_error).

(** The paths a single export writes, by the outcome of each write. *)
Lemma written_perform_save (save_path : string) (data : export_data Font)
    (st : App Font) (text : string) :
  d_text data = Some text ->
  let P := replace ".png" "" (replace "_color.png" "" save_path) in
  written (fst (perform_save save_path data st))
  = match write_error (P +:+ "_color.png") with
    | Some _ => []
    | None =>
        (P +:+ "_color.png") ::
        (if d_mask data || d_vmat data then
           match write_error (P +:+ "_trans.png") with
           | Some _ => []
           | None =>
               (P +:+ "_trans.png") ::
               (if d_vmat data then
                  match write_error (P +:+ ".vmat") with
                  | Some _ => []
                  | None => [P +:+ ".vmat"]
                  end
                else [])
           end
         else [])
    end.
Proof.
  intros Htext P. unfold _perform_save, data_text, write. rewrite Htext. fold P.
  destruct (write_error (P +:+ "_color.png")); [done|].
  destruct (d_mask data), (d_vmat data); cbn [orb];
    destruct (write_error (P +:+ "_trans.png"));
    try destruct (write_error (P +:+ ".vmat")); done.
Qed.

Lemma export_names_differ (P : string) :
  P +:+ "_trans.png" <> P +:+ "_color.png"
  /\ P +:+ ".vmat" <> P +:+ "_color.png"
  /\ P +:+ ".vmat" <> P +:+ "_trans.png".
Proof. split_and!; intros H%(String.app_inj P); discriminate H. Qed.

(** The files a single export writes and what each holds, by the outcome of
    each write. *)
Lemma files_perform_save (save_path : string) (data : export_data Font)
    (st : App Font) (text : string) :
  d_text data = Some text ->
  let P := replace ".png" "" (replace "_color.png" "" save_path) in
  let colour :=
    fst (create_text_image_pil truetype load_default textbbox text (d_size data)
           (d_font_size data) (Some (d_font_obj data)) (d_alignment data)
           (d_position data) (d_padding data) (d_line_spacing data) st) in
  let mask :=
    create_mask_image textbbox text (d_size data) (d_font_obj data) (d_alignment data)
      (d_position data) (d_padding data) (d_line_spacing data) st in
  let vmat :=
    generate_vmat_content (d_shader data)
      (get_relative_texture_path (abspath (P +:+ "_color.png")))
      (get_relative_texture_path (abspath (P +:+ "_trans.png"))) in
  files (fst (perform_save save_path data st))
  = match write_error (P +:+ "_color.png") with
    | Some _ => []
    | None =>
        (P +:+ "_color.png", PNG colour) ::
        (if d_mask data || d_vmat data then
           match write_error (P +:+ "_trans.png") with
           | Some _ => []
           | None =>
               (P +:+ "_trans.png", PNG mask) ::
               (if d_vmat data then
                  match write_error (P +:+ ".vmat") with
                  | Some _ => []
                  | None => [(P +:+ ".vmat", TextFile vmat)]
                  end
                else [])
           end
         else [])
    end.
Proof.
  intros Htext P colour mask vmat. unfold _perform_save, data_text, write.
  rewrite Htext. fold P.
  destruct (write_error (P +:+ "_color.png")); [done|].
  destruct (d_mask data), (d_vmat data); cbn [orb];
    destruct (write_error (P +:+ "_trans.png"));
    try destruct (write_error (P +:+ ".vmat")); done.
Qed.

(** [C5] A single export with prefix [P] writes no file other than
    [P_color.png], which holds the colour image of the text, [P_trans.png],
    which holds its mask, and [P.vmat], which holds the material that refers
    to the two images; the colour image comes first and is written whenever
    its own write does not raise; and when no write raises, the mask is
    written exactly when a mask or a material is requested and the material
    exactly when a material is requested. *)
Theorem single_export_files (save_path : string) (data : export_data Font)
    (st : App Font) (text : string) :
  d_text data = Some text ->
  let P := replace ".png" "" (replace "_color.png" "" save_path) in
  let colour :=
    fst (create_text_image_pil truetype load_default textbbox text (d_size data)
           (d_font_size data) (Some (d_font_obj data)) (d_alignment data)
           (d_position data) (d_padding data) (d_line_spacing data) st) in
  let mask :=
    create_mask_image textbbox text (d_size data) (d_font_obj data) (d_alignment data)
      (d_position data) (d_padding data) (d_line_spacing data) st in
  let vmat :=
    generate_vmat_content (d_shader data)
      (get_relative_texture_path (abspath (P +:+ "_color.png")))
      (get_relative_texture_path (abspath (P +:+ "_trans.png"))) in
  let out := files (fst (perform_save save_path data st)) in
  (forall path c, (path, c) ∈ out ->
     (path = P +:+ "_color.png" /\ c = PNG colour)
     \/ (path = P +:+ "_trans.png" /\ c = PNG mask /\ d_mask data || d_vmat data = true)
     \/ (path = P +:+ ".vmat" /\ c = TextFile vmat /\ d_vmat data = true))
  /\ (write_error (P +:+ "_color.png") = None ->
      exists rest, out = (P +:+ "_color.png", PNG colour) :: rest)
  /\ (write_error (P +:+ "_color.png") = None ->
      write_error (P +:+ "_trans.png") = None ->
      write_error (P +:+ ".vmat") = None ->
      out = ((P +:+ "_color.png", PNG colour)
             :: (if d_mask data || d_vmat data then [(P +:+ "_trans.png", PNG mask)] else [])
             ++ (if d_vmat data then [(P +:+ ".vmat", TextFile vmat)] else []))%list
      /\ (P +:+ "_color.png", PNG colour) ∈ out
      /\ ((exists c, (P +:+ "_trans.png", c) ∈ out) <-> d_mask data || d_vmat data = true)
      /\ ((exists c, (P +:+ ".vmat", c) ∈ out) <-> d_vmat data = true)).
Proof.
  intros Htext P colour mask vmat out. subst out.
  rewrite (files_perform_save save_path data st text Htext).
  fold P colour mask vmat.
  generalize (PNG colour) (PNG mask) (@TextFile Font vmat). intros cc cm cv.
  destruct (export_names_differ P) as (Htc & Hvc & Hvt).
  split_and!.
  - intros path c.
    destruct (write_error (P +:+ "_color.png")); [by intros ?%elem_of_nil|].
    destruct (d_mask data || d_vmat data) eqn:Hm.
    2:{ intros [= -> ->]%list_elem_of_singleton. by left. }
    destruct (write_error (P +:+ "_trans.png")).
    { intros [= -> ->]%list_elem_of_singleton. by left. }
    destruct (d_vmat data) eqn:Hv.
    2:{ rewrite !elem_of_cons, elem_of_nil. intros [[= -> ->]|[[= -> ->]|[]]]; auto. }
    destruct (write_error (P +:+ ".vmat"));
      rewrite !elem_of_cons, elem_of_nil; intros [[= -> ->]|[[= -> ->]|H]]; auto.
    + done.
    + destruct H as [[= -> ->]|[]]. auto.
  - intros ->. eauto.
  - intros -> -> ->. split_and!.
    + by destruct (d_mask data), (d_vmat data).
    + left.
    + destruct (d_mask data || d_vmat data).
      * split; [done|]. intros _. exists cm. right. left.
      * split; [|done]. intros [c [= H _]%list_elem_of_singleton]. by destruct Htc.
    + destruct (d_vmat data).
      * split; [done|]. intros _. exists cv.
        rewrite orb_true_r, !elem_of_cons. auto.
      * split; [|done]. intros [c Hin]. exfalso.
        destruct (d_mask data); cbn [orb app] in Hin;
          rewrite !elem_of_cons, elem_of_nil in Hin;
          destruct Hin as [[= H _]|Hin]; try (by destruct Hvc);
          destruct Hin as [[= H _]|[]]. by destruct Hvt.
Qed.

Lemma for_each_ok (items : list nat) (body : nat -> Run Font unit) :
  (forall i, i ∈ items -> snd (body i) = inr tt) ->
  for_each items body = (flat_map (fun i => fst (body i)) items, inr tt).
Proof.
  induction items as [|i items IH]; intros Hok; [done|].
  cbn [for_each flat_map]. unfold bind.
  pose proof (Hok i (list_elem_of_here _ _)) as Hi.
  destruct (body i) as [done_ r]. simpl in Hi. subst r.
  rewrite IH; [done|]. intros j Hj. apply Hok. by right.
Qed.

Lemma for_each_raise (before rest : list nat) (k : nat) (e : string)
    (body : nat -> Run Font unit) :
  (forall i, i ∈ before -> snd (body i) = inr tt) ->
  snd (body k) = inl e ->
  for_each (before ++ k :: rest) body
  = ((flat_map (fun i => fst (body i)) before ++ fst (body k))%list, inl e).
Proof.
  induction before as [|i before IH]; intros Hok Hk.
  - cbn [for_each flat_map app]. unfold bind.
    destruct (body k) as [done_ r]. simpl in Hk. by subst r.
  - cbn [for_each flat_map app]. unfold bind.
    pose proof (Hok i (list_elem_of_here _ _)) as Hi.
    destruct (body i) as [done_ r]. simpl in Hi. subst r.
    rewrite IH; [|intros j Hj; apply Hok; by right|done].
    cbn [fst]. by rewrite <- (assoc_L (++)).
Qed.

(** A digit that completes is logged last; a digit that raises has logged
    nothing. *)
Lemma batch_item_trace (directory : string) (data : export_data Font) (st : App Font)
    (i : nat) :
  match snd (item directory data st i) with
  | inr _ =>
      reported (fst (item directory data st i))
      = [LogInfo "BATCH" ("Generated number: " +:+ str_nat i)]
  | inl _ => reported (fst (item directory data st i)) = []
  end.
Proof.
  unfold batch_item, write.
  destruct (write_error (join directory (str_nat i) +:+ "_color.png")); [done|].
  destruct (d_mask data), (d_vmat data); cbn [orb];
    destruct (write_error (join directory (str_nat i) +:+ "_trans.png"));
    try destruct (write_error (join directory (str_nat i) +:+ ".vmat")); done.
Qed.

(** A digit queues no callback. *)
Lemma batch_item_shown (directory : string) (data : export_data Font) (st : App Font)
    (i : nat) :
  shown (fst (item directory data st i)) = [].
Proof.
  unfold batch_item, write.
  destruct (write_error (join directory (str_nat i) +:+ "_color.png")); [done|].
  destruct (d_mask data), (d_vmat data); cbn [orb];
    destruct (write_error (join directory (str_nat i) +:+ "_trans.png"));
    try destruct (write_error (join directory (str_nat i) +:+ ".vmat")); done.
Qed.

Lemma shown_app (trace more : list (effect Font)) :
  shown (trace ++ more) = (shown trace ++ shown more)%list.
Proof. apply omap_app. Qed.

Lemma shown_items (directory : string) (data : export_data Font) (st : App Font)
    (items : list nat) :
  shown (flat_map (fun i => fst (item directory data st i)) items) = [].
Proof.
  induction items as [|i items IH]; [done|].
  cbn [flat_map]. by rewrite shown_app, batch_item_shown, IH.
Qed.


(** [C9] With an empty text box the preview renders a single space, but the
    export gathers the empty text itself and passes it to the layout. *)
Theorem export_gathers_empty_text (st : App Font) (panel : Z * Z)
    (s : PreviewScheduler.Session Font) :
  text_input st = "" ->
  PreviewScheduler.app s = st ->
  d_text (fst (_gather_and_save truetype load_default st)) = Some ""
  /\ exists job,
       last (PreviewScheduler.executor_queue
               (PreviewScheduler.update_preview_thread_launcher truetype load_default
                  (Some panel) s)) = Some job
       /\ PreviewScheduler.job_text job = " ".
Proof.
  intros Htext Happ. split.
  - unfold _gather_and_save.
    destruct (FontObjectCache.get_font_object _ _ _ _). simpl. by rewrite Htext.
  - unfold PreviewScheduler.update_preview_thread_launcher.
    destruct (FontObjectCache.get_font_object _ _ _ _). destruct panel as [w h].
    eexists. cbn [PreviewScheduler.executor_queue]. rewrite last_snoc.
    split; [done|]. simpl. by rewrite Happ, Htext.
Qed.
End WithPillow.

Lemma single_export_files_witness :
  let data :=
    mkData 512 (Some "Hi") 50 Demo.Default "Center" "Center" 20 4 false true
      "csgo_static_overlay.vfx" in
  let out :=
    files
      (fst (_perform_save Demo.truetype Demo.Default Demo.textbbox Demo.abspath
              Demo.write_error "/out/sign_color.png" data initial_app)) in
  out
  = [("/out/sign_color.png",
      PNG (fst (create_text_image_pil Demo.truetype Demo.Default Demo.textbbox "Hi" 512 50
                  (Some Demo.Default) "Center" "Center" 20 4 initial_app)));
     ("/out/sign_trans.png",
      PNG (create_mask_image Demo.textbbox "Hi" 512 Demo.Default "Center" "Center" 20 4
             initial_app));
     ("/out/sign.vmat",
      TextFile (generate_vmat_content "csgo_static_overlay.vfx"
                  "materials/out/sign_color.png" "materials/out/sign_trans.png"))].
Proof.
  exact (proj1 (proj2 (proj2
           (single_export_files Demo.truetype Demo.Default Demo.textbbox Demo.abspath
              Demo.write_error "/out/sign_color.png"
              (mkData 512 (Some "Hi") 50 Demo.Default "Center" "Center" 20 4 false true
                 "csgo_static_overlay.vfx")
              initial_app "Hi" eq_refl)) eq_refl eq_refl eq_refl)).
Defined.



Lemma export_gathers_empty_text_witness :
  d_text (fst (_gather_and_save Demo.truetype Demo.Default
                 (set_text_input "" initial_app))) = Some "".
Proof.
  exact (proj1 (export_gathers_empty_text Demo.truetype Demo.Default
                  (set_text_input "" initial_app) (800, 700)%Z
                  (PreviewScheduler.step Demo.truetype Demo.Default Demo.textbbox
                     PreviewScheduler.initial_session (PreviewScheduler.TextEdited ""))
                  eq_refl eq_refl)).
Defined.

(** The export of an emptied text box measures and draws the empty text. *)
Example export_renders_empty_text :
  let '(data, st) :=
    _gather_and_save Demo.truetype Demo.Default (set_text_input "" initial_app) in
  rendered_texts
    (fst (_perform_save Demo.truetype Demo.Default Demo.textbbox Demo.abspath
            Demo.write_error "/out/sign_color.png" data st)) = [""].
Proof. vm_compute. reflexivity. Qed.

End ExportPipelineFacts.


(** * Further properties *)

(** ** Font object cache over time *)

Module FontCacheOpsFacts.
Import FontObjectCache FontCacheOps.

Section WithPillow.
Context {Font : Type}.
Variable truetype : string -> Z -> option Font.
Variable load_default : Font.

Abbreviation lookup := (get_font_object truetype load_default).
Abbreviation run_ops' := (run_ops truetype load_default).

(** The cache after a lookup: unchanged, or the new handle added to the old
    cache or to an emptied one. *)
Lemma lookup_cache (size : Z) (st : App Font) :
  _font_obj_cache (snd (lookup size st)) = _font_obj_cache st
  \/ exists path font,
       _font_obj_cache st !! (font_family_var st, size) = None
       /\ font_paths st !! font_family_var st = Some path
       /\ truetype path size = Some font
       /\ fst (lookup size st) = font
       /\ _font_obj_cache (snd (lookup size st))
          = <[(font_family_var st, size) := font]>
              (if (50 <? base.size (_font_obj_cache st))%nat then ∅
               else _font_obj_cache st).
Proof.
  unfold get_font_object.
  destruct (_font_obj_cache st !! (font_family_var st, size)) eqn:Hc; [by left|].
  destruct (font_paths st !! font_family_var st) as [path|] eqn:Hp; [|by left].
  destruct (truetype path size) as [font|] eqn:Ht; [|by left].
  right. exists path, font. done.
Qed.

Lemma apply_op_cache (st : App Font) (o : op) :
  (forall size, o <> Lookup size) ->
  _font_obj_cache (apply_op truetype load_default st o) = _font_obj_cache st.
Proof.
  intros Hno. destruct o as [size|name|[[names paths]|]|]; try done.
  by destruct (Hno size).
Qed.

(** [X1] Whatever fonts and sizes are looked up, and however the catalog
    changes in between, the font object cache never holds more than 51
    handles. *)
Theorem font_cache_bounded (ops : list op) :
  (base.size (_font_obj_cache (run_ops' ops initial_app)) <= 51)%nat.
Proof.
  induction ops as [|o ops IH] using rev_ind.
  - simpl. rewrite map_size_empty. lia.
  - unfold run_ops in *. rewrite foldl_snoc.
    set (st := foldl (apply_op truetype load_default) initial_app ops) in *.
    destruct o as [size|name|result|]; try (rewrite apply_op_cache; [done|done]).
    cbn [apply_op]. destruct (lookup_cache size st) as [->|(path & font & Hmiss & _ & _ & _ & ->)];
      [done|].
    destruct (50 <? base.size (_font_obj_cache st))%nat eqn:Hfull.
    + rewrite map_size_insert_None by apply lookup_empty. rewrite map_size_empty. lia.
    + rewrite map_size_insert_None by done. apply Nat.ltb_ge in Hfull. lia.
Qed.

(** [X2] Every handle in the cache was loaded by [ImageFont.truetype] at the
    size of its key: the built-in default font is never memoized. *)
Theorem cached_handles_were_loaded (ops : list op) (font_name : string) (size : Z)
    (font : Font) :
  _font_obj_cache (run_ops' ops initial_app) !! (font_name, size) = Some font ->
  exists path, truetype path size = Some font.
Proof.
  revert font_name size font. induction ops as [|o ops IH] using rev_ind;
    intros font_name size font.
  - simpl. by rewrite lookup_empty.
  - unfold run_ops in *. rewrite foldl_snoc.
    set (st := foldl (apply_op truetype load_default) initial_app ops) in *.
    destruct o as [size'|name|result|]; try (rewrite apply_op_cache; [apply IH|done]).
    cbn [apply_op].
    destruct (lookup_cache size' st) as [->|(path & f & _ & _ & Hload & _ & ->)];
      [apply IH|].
    destruct (decide ((font_family_var st, size') = (font_name, size))) as [[= <- <-]|Hne].
    + rewrite lookup_insert_eq. intros [= <-]. eauto.
    + rewrite lookup_insert_ne by done.
      destruct (50 <? base.size (_font_obj_cache st))%nat; [by rewrite lookup_empty|].
      apply IH.
Qed.

(** [X3] Once a font has been loaded at a size, that handle is served from
    memory: the next lookup returns it whatever has happened to the catalog
    and to the font file since. *)
Theorem loaded_handle_is_served_from_memory (size : Z) (st : App Font) (path : string)
    (font : Font) (truetype' : string -> Z -> option Font) (load_default' : Font)
    (names : list string) (paths : gmap string string) :
  _font_obj_cache st !! (font_family_var st, size) = None ->
  font_paths st !! font_family_var st = Some path ->
  truetype path size = Some font ->
  fst (lookup size st) = font
  /\ get_font_object truetype' load_default' size (set_catalog names paths (snd (lookup size st)))
     = (font, set_catalog names paths (snd (lookup size st))).
Proof.
  intros Hmiss Hpath Hload. unfold get_font_object at 1 3 4.
  rewrite Hmiss, Hpath, Hload. cbn [fst snd]. split; [done|].
  unfold get_font_object. cbn. by rewrite lookup_insert_eq.
Qed.

(** [X4] A failed load is not remembered: the lookup returns the default font
    and leaves the state as it was, so a later lookup tries the file again. *)
Theorem failed_load_is_retried (size : Z) (st : App Font) (path : string) (font : Font)
    (truetype' : string -> Z -> option Font) :
  _font_obj_cache st !! (font_family_var st, size) = None ->
  font_paths st !! font_family_var st = Some path ->
  truetype path size = None ->
  truetype' path size = Some font ->
  lookup size st = (load_default, st)
  /\ fst (get_font_object truetype' load_default size (snd (lookup size st))) = font.
Proof.
  intros Hmiss Hpath Hfail Hload. unfold get_font_object.
  rewrite Hmiss, Hpath, Hfail. split; [done|]. cbn [snd]. by rewrite Hmiss, Hpath, Hload.
Qed.
End WithPillow.

Lemma cached_handles_were_loaded_witness :
  exists path, Demo.truetype path 50 = Some (Demo.Loaded "/usr/share/fonts/calibri.ttf" 50).
Proof.
  apply (cached_handles_were_loaded Demo.truetype Demo.Default
           [ScanFinished (Some (["calibri"], {["calibri" := "/usr/share/fonts/calibri.ttf"]}));
            Lookup 50]
           "calibri" 50).
  reflexivity.
Defined.

Lemma loaded_handle_is_served_from_memory_witness :
  fst (get_font_object (fun _ _ => None) Demo.Default 50
         (rescan_fonts_action
            (snd (get_font_object Demo.truetype Demo.Default 50 Demo.scanned_app))))
  = Demo.Loaded "/usr/share/fonts/calibri.ttf" 50.
Proof.
  destruct (loaded_handle_is_served_from_memory Demo.truetype Demo.Default 50
              Demo.scanned_app "/usr/share/fonts/calibri.ttf"
              (Demo.Loaded "/usr/share/fonts/calibri.ttf" 50)
              (fun _ _ => None) Demo.Default [] ∅ eq_refl eq_refl eq_refl) as [_ Hnext].
  unfold rescan_fonts_action. by rewrite Hnext.
Defined.

Lemma failed_load_is_retried_witness :
  fst (get_font_object Demo.truetype Demo.Default 50
         (snd (get_font_object (fun _ _ => None) Demo.Default 50 Demo.scanned_app)))
  = Demo.Loaded "/usr/share/fonts/calibri.ttf" 50.
Proof.
  exact (proj2 (failed_load_is_retried (fun _ _ => None) Demo.Default 50 Demo.scanned_app
                  "/usr/share/fonts/calibri.ttf"
                  (Demo.Loaded "/usr/share/fonts/calibri.ttf" 50) Demo.truetype
                  eq_refl eq_refl eq_refl eq_refl)).
Defined.

End FontCacheOpsFacts.

(** ** Layout: what the two passes share, and where the text lands *)

Module LayoutEngineExtra.
Import PyStr LayoutEngine.
Local Open Scope Z_scope.

Section WithPillow.
Context {Font : Type}.
Variable truetype : string -> Z -> option Font.
Variable load_default : Font.
Variable textbbox : Font -> string -> string -> Z -> Z * Z * Z * Z.

Abbreviation colour_pass := (create_text_image_pil truetype load_default textbbox).
Abbreviation mask_pass := (create_mask_image textbbox).

(** [X5] The mask is drawn like the colour image: on a canvas of the same
    size, with one call at the same place, with the same text, font, alignment,
    spacing and stroke width (the outline width when the outline is enabled,
    0 otherwise); only the inks differ, the mask using 255 for fill and
    stroke. *)
Theorem mask_follows_colour_pass (st : App Font) (text : string) (size font_size : Z)
    (font_obj : Font) (alignment position : string) (padding line_spacing : Z) :
  let colour :=
    fst (colour_pass text size font_size (Some font_obj) alignment position padding
           line_spacing st) in
  let mask := mask_pass text size font_obj alignment position padding line_spacing st in
  im_size colour = (size, size) /\ im_size mask = (size, size)
  /\ exists c m,
       im_draws colour = [c] /\ im_draws mask = [m]
       /\ dt_xy m = dt_xy c /\ dt_text m = dt_text c /\ dt_font m = dt_font c
       /\ dt_align m = dt_align c /\ dt_spacing m = dt_spacing c
       /\ dt_stroke_width m = dt_stroke_width c
       /\ dt_stroke_width c = (if outline_enabled st then outline_width_var st else 0)
       /\ dt_fill c = InkRGBA (text_color_rgb st)
       /\ dt_fill m = InkL 255 /\ dt_stroke_fill m = Some (InkL 255).
Proof.
  unfold create_text_image_pil, create_mask_image.
  destruct (textbbox font_obj text (lower alignment) line_spacing) as [[[l t] r] b].
  cbn [fst im_size im_draws]. split_and!; [done..|].
  eexists _, _. split_and!; try reflexivity; by destruct (outline_enabled st).
Qed.

(** [X6] When the measured box fits the canvas with the padding on both sides
    (the padding not negative), the box is placed inside the canvas, whatever
    the anchor. *)
Theorem text_box_inside_canvas (st : App Font) (text : string) (size font_size : Z)
    (font_obj : Font) (alignment position : string) (padding line_spacing : Z)
    (left_ top_ right_ bottom_ : Z) :
  textbbox font_obj text (lower alignment) line_spacing = (left_, top_, right_, bottom_) ->
  0 <= padding ->
  (right_ - left_) + 2 * padding <= size ->
  (bottom_ - top_) + 2 * padding <= size ->
  exists x y,
    draw_origin (fst (colour_pass text size font_size (Some font_obj) alignment position
                        padding line_spacing st)) = Some (x, y)
    /\ draw_origin (mask_pass text size font_obj alignment position padding
                      line_spacing st) = Some (x, y)
    /\ 0 <= x + left_ /\ x + right_ <= size
    /\ 0 <= y + top_ /\ y + bottom_ <= size.
Proof.
  intros Hbox Hpad Hw Hh. unfold create_text_image_pil, create_mask_image. rewrite Hbox.
  eexists _, _. split; [by destruct (outline_enabled st)|]. split; [done|].
  destruct (contains "left" (lower position)), (contains "right" (lower position)),
    (contains "top" (lower position)), (contains "bottom" (lower position));
    split_and!; try lia;
    try (pose proof (Z.div_mod (size - (right_ - left_)) 2 ltac:(lia));
         pose proof (Z.mod_pos_bound (size - (right_ - left_)) 2 ltac:(lia)); lia);
    try (pose proof (Z.div_mod (size - (bottom_ - top_)) 2 ltac:(lia));
         pose proof (Z.mod_pos_bound (size - (bottom_ - top_)) 2 ltac:(lia)); lia).
Qed.

(** [X7] An anchor that names neither "left" nor "right" centres the box: the
    margin on the right is the margin on the left or one pixel more, whatever
    the sizes; likewise top and bottom for an anchor that names neither "top"
    nor "bottom". *)
Theorem centred_within_one_pixel (st : App Font) (text : string) (size : Z)
    (font_obj : Font) (alignment position : string) (padding line_spacing : Z)
    (left_ top_ right_ bottom_ : Z) :
  textbbox font_obj text (lower alignment) line_spacing = (left_, top_, right_, bottom_) ->
  exists x y,
    draw_origin (mask_pass text size font_obj alignment position padding
                   line_spacing st) = Some (x, y)
    /\ (contains "left" (lower position) = false ->
        contains "right" (lower position) = false ->
        0 <= (size - (x + right_)) - (x + left_) <= 1)
    /\ (contains "top" (lower position) = false ->
        contains "bottom" (lower position) = false ->
        0 <= (size - (y + bottom_)) - (y + top_) <= 1).
Proof.
  intros Hbox. unfold create_mask_image. rewrite Hbox.
  eexists _, _. split; [done|]. split.
  - intros -> ->.
    pose proof (Z.div_mod (size - (right_ - left_)) 2 ltac:(lia)).
    pose proof (Z.mod_pos_bound (size - (right_ - left_)) 2 ltac:(lia)). lia.
  - intros -> ->.
    pose proof (Z.div_mod (size - (bottom_ - top_)) 2 ltac:(lia)).
    pose proof (Z.mod_pos_bound (size - (bottom_ - top_)) 2 ltac:(lia)). lia.
Qed.
End WithPillow.

Lemma text_box_inside_canvas_witness :
  exists x y,
    draw_origin (create_mask_image Demo.textbbox "Hi" 512 Demo.Default "Center"
                   "Bottom Right" 20 4 initial_app) = Some (x, y)
    /\ 0 <= x + 1 /\ x + 21 <= 512 /\ 0 <= y + 2 /\ y + 22 <= 512.
Proof.
  destruct (text_box_inside_canvas Demo.truetype Demo.Default Demo.textbbox initial_app
              "Hi" 512 50 Demo.Default "Center" "Bottom Right" 20 4 1 2 21 22 eq_refl)
    as (x & y & _ & Hmask & Hbounds); [lia..|].
  exists x, y. by split.
Defined.

Lemma centred_within_one_pixel_witness :
  exists x y,
    draw_origin (create_mask_image Demo.textbbox "Hey" 512 Demo.Default "Center"
                   "Center" 20 4 initial_app) = Some (x, y)
    /\ 0 <= (512 - (x + 31)) - (x + 1) <= 1
    /\ 0 <= (512 - (y + 22)) - (y + 2) <= 1.
Proof.
  destruct (centred_within_one_pixel Demo.textbbox initial_app "Hey" 512 Demo.Default
              "Center" "Center" 20 4 1 2 31 22 eq_refl)
    as (x & y & Hmask & Hx & Hy).
  exists x, y. split; [exact Hmask|]. split; [by apply Hx|by apply Hy].
Defined.

End LayoutEngineExtra.

(** ** Preview: what is rendered, and what gets shown *)

Module PreviewSchedulerExtra.
Import PyStr LayoutEngine PreviewScheduler.
Local Open Scope Z_scope.

Section WithPillow.
Context {Font : Type}.
Variable truetype : string -> Z -> option Font.
Variable load_default : Font.
Variable textbbox : Font -> string -> string -> Z -> Z * Z * Z * Z.

Abbreviation step' := (step truetype load_default textbbox).
Abbreviation run' := (run truetype load_default textbbox).
Abbreviation launcher := (update_preview_thread_launcher truetype load_default).
Abbreviation colour_pass := (create_text_image_pil truetype load_default textbbox).

Lemma colour_pass_drawn_text (text : string) (size font_size : Z) (font_obj : Font)
    (alignment position : string) (padding line_spacing : Z) (st : App Font) :
  drawn_text (fst (colour_pass text size font_size (Some font_obj) alignment position
                     padding line_spacing st)) = Some text
  /\ im_size (fst (colour_pass text size font_size (Some font_obj) alignment position
                     padding line_spacing st)) = (size, size).
Proof.
  unfold create_text_image_pil.
  destruct (textbbox font_obj text (lower alignment) line_spacing) as [[[l t] r] b].
  by destruct (outline_enabled st).
Qed.

(** What the launcher puts in the queue. *)
Lemma launcher_job (panel : Z * Z) (s : Session Font) :
  exists job st,
    launcher (Some panel) s
    = mkSession st (executor_queue s ++ [job])%list (after_queue s) (preview_image_ref s)
        (applied_req_ids s) (_checkerboard_cache s)
    /\ preview_req_id st = preview_req_id (app s) + 1
    /\ job_req_id job = preview_req_id (app s) + 1
    /\ job_text job = (if String.eqb (text_input (app s)) "" then " " else text_input (app s))
    /\ job_size job = current_size (app s)
    /\ 200 <= job_panel_w job /\ 200 <= job_panel_h job
    /\ job_panel_w job = (if fst panel <? 200 then 500 else fst panel)
    /\ job_panel_h job = (if snd panel - 60 <? 200 then 500 else snd panel - 60).
Proof.
  unfold update_preview_thread_launcher.
  pose proof (FontObjectCacheFacts.get_font_object_frame truetype load_default
                (font_size_var (set_preview_req_id (preview_req_id (app s) + 1) (app s)))
                (set_preview_req_id (preview_req_id (app s) + 1) (app s))) as Hframe.
  cbv zeta in Hframe.
  destruct (FontObjectCache.get_font_object _ _ _ _) as [font_obj st'].
  cbn [snd] in Hframe. destruct panel as [width height].
  eexists _, _. split; [reflexivity|]. rewrite <- Hframe. cbn.
  split_and!; try done.
  - destruct (width <? 200) eqn:E; [lia|]. apply Z.ltb_ge in E. lia.
  - destruct (height - 60 <? 200) eqn:E; [lia|]. apply Z.ltb_ge in E. lia.
Qed.

Lemma launcher_failed (s : Session Font) :
  exists st,
    launcher None s
    = mkSession st (executor_queue s) (after_queue s) (preview_image_ref s)
        (applied_req_ids s) (_checkerboard_cache s)
    /\ preview_req_id st = preview_req_id (app s) + 1.
Proof.
  unfold update_preview_thread_launcher.
  pose proof (FontObjectCacheFacts.get_font_object_frame truetype load_default
                (font_size_var (set_preview_req_id (preview_req_id (app s) + 1) (app s)))
                (set_preview_req_id (preview_req_id (app s) + 1) (app s))) as Hframe.
  cbv zeta in Hframe.
  destruct (FontObjectCache.get_font_object _ _ _ _) as [font_obj st'].
  cbn [snd] in Hframe. eexists. split; [reflexivity|]. by rewrite <- Hframe.
Qed.

(** The preview is never smaller than 100 pixels a side. *)
Lemma display_size_min (size panel_w panel_h d : Z) :
  display_size size panel_w panel_h = Some d -> 100 <= d.
Proof.
  unfold display_size. destruct (PyFloat.true_divide _ _) as [scale|]; [|done].
  destruct (PyFloat.gt_one scale).
  - intros [= <-]. lia.
  - destruct (PyFloat.int_mul size scale) as [product|]; [|done].
    destruct (PyFloat.to_int product); [|done]. intros [= <-]. lia.
Qed.

(** A job that renders, on a checkerboard and at a display size that can be
    computed, queues one frame. *)
Lemma threaded_render_ok (job : render_job Font) (s : Session Font)
    (bg : Checkerboard.board) (cache : gmap Z Checkerboard.board) (d : Z) :
  Checkerboard.get_cached_checkerboard (job_size job) 20 (_checkerboard_cache s)
  = Some (bg, cache) ->
  display_size (job_size job) (job_panel_w job) (job_panel_h job) = Some d ->
  _threaded_render truetype load_default textbbox job true s
  = mkSession (app s) (executor_queue s)
      (after_queue s
       ++ [mkFrame
             (mkPreview bg
                (fst (colour_pass (job_text job) (job_size job) (job_font_size job)
                        (Some (job_font_obj job)) (job_alignment job) (job_position job)
                        (job_padding job) (job_line_spacing job) (app s)))
                (if negb (d =? job_size job) then Some d else None))
             d (job_req_id job)])%list
      (preview_image_ref s) (applied_req_ids s) cache.
Proof. intros Hboard Hsize. unfold _threaded_render. by rewrite Hboard, Hsize. Qed.

(** [X8] In every run of the preview: each job waiting for the worker has a
    text that is not empty, a panel of at least 200 by 200 and a tag of at
    least 1; and each frame rendered, waiting or on display, was drawn with a
    text that is not empty. *)
Theorem preview_never_draws_empty_text (es : list event) :
  let s := run' es initial_session in
  0 <= preview_req_id (app s)
  /\ Forall (fun job => job_text job <> "" /\ 200 <= job_panel_w job
                        /\ 200 <= job_panel_h job /\ 1 <= job_req_id job)
       (executor_queue s)
  /\ Forall (fun f => exists t, drawn_text (pv_text_layer (frame_image f)) = Some t
                                /\ t <> "")
       (after_queue s)
  /\ (forall img, preview_image_ref s = Some img ->
        exists t, drawn_text (pv_text_layer (light_image img)) = Some t /\ t <> "").
Proof.
  induction es as [|e es IH] using rev_ind.
  - cbn. split_and!; [lia|constructor|constructor|done].
  - unfold run in *. rewrite foldl_snoc.
    set (s := foldl (step truetype load_default textbbox) initial_session es) in *.
    cbv zeta in IH. destruct IH as (Hc & Hq & Ha & Hp).
    destruct e as [[panel|]|i ok|i ok|t]; cbn [step].
    + destruct (launcher_job panel s)
        as (job & st & -> & Hst & Hid & Htext & _ & Hw & Hh & _).
      cbn. split_and!; [lia| |done|done].
      apply Forall_app. split; [done|]. apply Forall_singleton.
      split_and!; [|done|done|lia].
      rewrite Htext. by destruct (String.eqb_spec (text_input (app s)) "").
    + destruct (launcher_failed s) as (st & -> & Hst). cbn. split_and!; [lia|done..].
    + destruct (executor_queue s !! i) as [job|] eqn:Hjob; [|done].
      assert (job_text job <> "") as Htext.
      { apply list_elem_of_lookup_2 in Hjob. eapply Forall_forall in Hq; [|exact Hjob].
        apply Hq. }
      destruct (PreviewSchedulerFacts.threaded_render_frame truetype load_default textbbox
                  job ok
                  (mkSession (app s) (delete i (executor_queue s)) (after_queue s)
                     (preview_image_ref s) (applied_req_ids s) (_checkerboard_cache s)))
        as (Happ & Hexec & Hshown & _ & Hafter).
      cbn [app executor_queue after_queue preview_image_ref] in Happ, Hexec, Hshown, Hafter.
      rewrite Happ, Hexec, Hshown. split_and!; [done| | |done].
      * apply Forall_forall. intros j Hj%list_elem_of_delete_inv.
        by eapply Forall_forall in Hq.
      * destruct Hafter as [->|(img & d & -> & Hlayer)]; [done|].
        apply Forall_app. split; [done|]. apply Forall_singleton.
        cbn [frame_image]. rewrite Hlayer.
        exists (job_text job). split; [|done].
        apply (proj1 (colour_pass_drawn_text _ _ (job_font_size job) _ _ _ _ _ _)).
    + destruct (after_queue s !! i) as [f|] eqn:Hf; [|done].
      assert (exists t, drawn_text (pv_text_layer (frame_image f)) = Some t /\ t <> "")
        as Hframe.
      { apply list_elem_of_lookup_2 in Hf. by eapply Forall_forall in Ha. }
      assert (Forall (fun f => exists t, drawn_text (pv_text_layer (frame_image f)) = Some t
                                         /\ t <> "")
                (delete i (after_queue s))) as Ha'.
      { apply Forall_forall. intros j Hj%list_elem_of_delete_inv.
        by eapply Forall_forall in Ha. }
      unfold _apply_preview. cbn [app].
      destruct (negb _); cbn; [done|]. destruct ok; cbn; [|done].
      split_and!; [done..|]. by intros img [= <-].
    + cbn. done.
Qed.

(** [X9] A request that is launched, rendered and applied before the next
    launch ends up on display.  When the checkerboard of the current size can
    be had and the display size [d] can be computed from the size and the
    panel (less than 200 wide, or less than 260 high, counts as 500), the
    picture shown is that checkerboard with the text layer pasted on it, the
    text layer being the canvas of the current size drawn with the current
    text (a single space for the empty text); it is resized unless [d] is the
    canvas size already, and it is shown [d] by [d], which is at least 100.
    Its tag heads the list of frames shown, the queues are as before, and the
    checkerboard is in its cache. *)
Theorem latest_request_is_displayed (s : Session Font) (panel : Z * Z)
    (bg : Checkerboard.board) (cache : gmap Z Checkerboard.board) (d : Z) :
  let size := current_size (app s) in
  let panel_w := if fst panel <? 200 then 500 else fst panel in
  let panel_h := if snd panel - 60 <? 200 then 500 else snd panel - 60 in
  Checkerboard.get_cached_checkerboard size 20 (_checkerboard_cache s) = Some (bg, cache) ->
  display_size size panel_w panel_h = Some d ->
  let s1 := step' s (TimerFires (Some panel)) in
  let s2 := step' s1 (WorkerRuns (length (executor_queue s)) true) in
  let s3 := step' s2 (TkRuns (length (after_queue s)) true) in
  exists text_layer,
    preview_image_ref s3
    = Some (mkCTkImage
              (mkPreview bg text_layer (if negb (d =? size) then Some d else None))
              (d, d))
    /\ drawn_text text_layer
       = Some (if String.eqb (text_input (app s)) "" then " " else text_input (app s))
    /\ im_size text_layer = (size, size)
    /\ 100 <= d
    /\ applied_req_ids s3 = (preview_req_id (app s) + 1) :: applied_req_ids s
    /\ executor_queue s3 = executor_queue s /\ after_queue s3 = after_queue s
    /\ _checkerboard_cache s3 = cache.
Proof.
  intros size panel_w panel_h Hboard Hsize. cbn [step].
  destruct (launcher_job panel s)
    as (job & st & -> & Hst & Hid & Htext & Hjsize & _ & _ & Hw & Hh).
  cbn [executor_queue after_queue app preview_image_ref applied_req_ids
       _checkerboard_cache].
  rewrite list_lookup_middle by done.
  rewrite (threaded_render_ok job _ bg cache d);
    cbn [executor_queue after_queue app preview_image_ref applied_req_ids
         _checkerboard_cache];
    [|by rewrite Hjsize|by rewrite Hjsize, Hw, Hh].
  rewrite list_lookup_middle by done. unfold _apply_preview.
  cbn [executor_queue after_queue app preview_image_ref applied_req_ids frame_image
       frame_req_id frame_display_size _checkerboard_cache].
  rewrite Hid, Hst, Z.eqb_refl. cbn [negb].
  cbn [executor_queue after_queue app preview_image_ref applied_req_ids
       _checkerboard_cache].
  eexists. rewrite Hjsize. split; [reflexivity|].
  destruct (colour_pass_drawn_text (job_text job) (current_size (app s))
              (job_font_size job) (job_font_obj job) (job_alignment job)
              (job_position job) (job_padding job) (job_line_spacing job) st) as [-> ->].
  rewrite Htext. split_and!; try done.
  - by apply (display_size_min size panel_w panel_h).
  - by rewrite delete_middle, (right_id_L [] (++)%list).
  - by rewrite delete_middle, (right_id_L [] (++)%list).
Qed.
End WithPillow.

(** The display sizes of a canvas of 1024 in a panel of 800 by 640, of a
    canvas that fits its panel, of a canvas smaller than 100, and of a canvas
    of size 0, for which the division raises. *)
Example display_size_examples :
  display_size 1024 800 640 = Some 640
  /\ display_size 512 800 640 = Some 512
  /\ display_size 50 800 640 = Some 100
  /\ display_size 1000 999 999 = Some 999
  /\ display_size 0 800 640 = None.
Proof. vm_compute. split_and!; reflexivity. Qed.

Lemma latest_request_is_displayed_witness :
  let s3 :=
    run Demo.truetype Demo.Default Demo.textbbox
      [TimerFires (Some (800, 500)); WorkerRuns 0 true; TkRuns 0 true] initial_session in
  exists img,
    preview_image_ref s3 = Some (mkCTkImage img (440, 440))
    /\ pv_resized img = Some 440
    /\ drawn_text (pv_text_layer img) = Some "SAMPLE TEXT".
Proof.
  destruct (Checkerboard.get_cached_checkerboard 512 20 ∅) as [[bg cache]|] eqn:Hboard;
    [|vm_compute in Hboard; discriminate Hboard].
  assert (display_size 512 800 440 = Some 440) as Hsize by (vm_compute; reflexivity).
  destruct (latest_request_is_displayed Demo.truetype Demo.Default Demo.textbbox
              initial_session (800, 500) bg cache 440 Hboard Hsize)
    as (text_layer & Hshown & Htext & _).
  eexists. split; [exact Hshown|]. split; [reflexivity|exact Htext].
Defined.

End PreviewSchedulerExtra.

(** ** Debouncing *)

Module DebounceFacts.
Import PreviewScheduler Debounce.
Local Open Scope Z_scope.

Section WithPillow.
Context {Font : Type}.
Variable truetype : string -> Z -> option Font.
Variable load_default : Font.
Variable textbbox : Font -> string -> string -> Z -> Z * Z * Z * Z.

Abbreviation ui_step' := (ui_step truetype load_default textbbox).
Abbreviation ui_run' := (ui_run truetype load_default textbbox).
Abbreviation counter := (fun ui : Ui Font => preview_req_id (app (session ui))).

Lemma launcher_counter (panel : option (Z * Z)) (s : Session Font) :
  preview_req_id (app (update_preview_thread_launcher truetype load_default panel s))
  = preview_req_id (app s) + 1.
Proof.
  destruct panel as [panel|].
  - destruct (PreviewSchedulerExtra.launcher_job truetype load_default panel s)
      as (job & st & -> & Hst & _). done.
  - destruct (PreviewSchedulerExtra.launcher_failed truetype load_default s)
      as (st & -> & Hst). done.
Qed.

Lemma background_counter (s : Session Font) (e : event) :
  (forall panel, e <> TimerFires panel) ->
  preview_req_id (app (step truetype load_default textbbox s e)) = preview_req_id (app s).
Proof.
  intros Hne. destruct e as [panel|i ok|i ok|t]; cbn [step].
  - by destruct (Hne panel).
  - destruct (executor_queue s !! i) as [job|]; [|done].
    by destruct (PreviewSchedulerFacts.threaded_render_frame truetype load_default textbbox
                   job ok
                   (mkSession (app s) (delete i (executor_queue s)) (after_queue s)
                      (preview_image_ref s) (applied_req_ids s) (_checkerboard_cache s)))
      as (-> & _).
  - destruct (after_queue s !! i); [|done]. unfold _apply_preview. cbn [app].
    by destruct (negb _), ok.
  - done.
Qed.

Lemma trigger_pending (ui : Ui Font) :
  (pending_timers ui = []
   \/ exists id, pending_timers ui = [id] /\ debounce_timer ui = Some id) ->
  pending_timers (trigger_preview_update ui) = [next_timer_id ui]
  /\ debounce_timer (trigger_preview_update ui) = Some (next_timer_id ui)
  /\ session (trigger_preview_update ui) = session ui
  /\ next_timer_id (trigger_preview_update ui) = S (next_timer_id ui).
Proof.
  intros [Hnone|(id & Hone & Hid)]; unfold trigger_preview_update; cbn.
  - rewrite Hnone. by destruct (debounce_timer ui).
  - rewrite Hone, Hid. unfold after_cancel. rewrite filter_cons, decide_False by tauto.
    done.
Qed.

Lemma ui_step_pending (ui : Ui Font) (e : ui_event) :
  (pending_timers ui = []
   \/ exists id, pending_timers ui = [id] /\ debounce_timer ui = Some id) ->
  pending_timers (ui_step' ui e) = []
  \/ exists id, pending_timers (ui_step' ui e) = [id]
                /\ debounce_timer (ui_step' ui e) = Some id.
Proof.
  intros Hinv. destruct e as [|font_name|id panel|e]; cbn [ui_step].
  - right. destruct (trigger_pending ui Hinv) as (-> & -> & _). eauto.
  - right. unfold select_font.
    destruct (trigger_pending
                (mkUi (mkSession (set_font_family_var font_name (app (session ui)))
                         (executor_queue (session ui)) (after_queue (session ui))
                         (preview_image_ref (session ui)) (applied_req_ids (session ui))
                         (_checkerboard_cache (session ui)))
                   (debounce_timer ui) (pending_timers ui) (next_timer_id ui)) Hinv)
      as (-> & -> & _). eauto.
  - unfold timer_due. case_bool_decide as Hin; [|done]. left. cbn.
    destruct Hinv as [Hnone|(id' & Hone & _)].
    + rewrite Hnone in Hin. by apply elem_of_nil in Hin.
    + rewrite Hone in Hin |- *. apply list_elem_of_singleton in Hin as ->.
      unfold after_cancel. by rewrite filter_cons, decide_False by tauto.
  - by destruct e.
Qed.

Lemma ui_run_pending (es : list ui_event) :
  pending_timers (ui_run' es initial_ui) = []
  \/ exists id, pending_timers (ui_run' es initial_ui) = [id]
                /\ debounce_timer (ui_run' es initial_ui) = Some id.
Proof.
  induction es as [|e es IH] using rev_ind; [by left|].
  unfold ui_run in *. rewrite foldl_snoc. by apply ui_step_pending.
Qed.

(** [X10] However the handlers, timers and background work interleave, at most
    one debounce timer is pending, and the launcher has run no more often than
    a handler asked for a preview: the launches and the pending timer together
    never outnumber the changes. *)
Theorem launches_never_outnumber_changes (es : list ui_event) :
  let ui := ui_run' es initial_ui in
  (length (pending_timers ui) <= 1)%nat
  /\ 0 <= counter ui
  /\ counter ui + Z.of_nat (length (pending_timers ui)) <= Z.of_nat (count_changes es).
Proof.
  cbv zeta. split.
  { destruct (ui_run_pending es) as [->|(id & -> & _)]; simpl; lia. }
  induction es as [|e es IH] using rev_ind; [cbn; lia|].
  pose proof (ui_run_pending es) as Hinv.
  unfold ui_run, count_changes in *. rewrite foldl_snoc, List.filter_app, length_app.
  set (ui := foldl (ui_step truetype load_default textbbox) initial_ui es) in *.
  destruct e as [|font_name|id panel|e]; cbn [ui_step List.filter is_change length].
  - destruct (trigger_pending ui Hinv) as (-> & _ & -> & _). cbn [length]. lia.
  - unfold select_font.
    destruct (trigger_pending
                (mkUi (mkSession (set_font_family_var font_name (app (session ui)))
                         (executor_queue (session ui)) (after_queue (session ui))
                         (preview_image_ref (session ui)) (applied_req_ids (session ui))
                         (_checkerboard_cache (session ui)))
                   (debounce_timer ui) (pending_timers ui) (next_timer_id ui)) Hinv)
      as (-> & _ & -> & _). cbn. lia.
  - unfold timer_due. case_bool_decide as Hin; [|lia]. cbn [session pending_timers].
    rewrite launcher_counter.
    destruct Hinv as [Hnone|(id' & Hone & _)].
    + rewrite Hnone in Hin. by apply elem_of_nil in Hin.
    + rewrite Hone in Hin, IH |- *. apply list_elem_of_singleton in Hin as ->.
      unfold after_cancel. rewrite filter_cons, decide_False by tauto.
      cbn in *. lia.
  - destruct e as [panel|i ok|i ok|t]; [lia|..]; cbn [session pending_timers];
      rewrite background_counter by done; lia.
Qed.

(** [X11] A burst of changes launches once: after any number of changes in a
    row exactly one timer is pending, nothing has been launched for them yet,
    and when that timer runs the launcher runs once and no timer is left; any
    other timer does nothing. *)
Theorem burst_of_changes_launches_once (es : list ui_event) (n : nat)
    (panel : option (Z * Z)) :
  let before := ui_run' es initial_ui in
  let after := ui_run' (replicate (S n) Changed) before in
  exists id,
    pending_timers after = [id]
    /\ counter after = counter before
    /\ counter (timer_due truetype load_default id panel after) = counter before + 1
    /\ pending_timers (timer_due truetype load_default id panel after) = []
    /\ forall other, other <> id -> timer_due truetype load_default other panel after = after.
Proof.
  cbv zeta. pose proof (ui_run_pending es) as Hinv.
  set (before := ui_run' es initial_ui) in *.
  assert (forall k ui,
            (pending_timers ui = []
             \/ exists id, pending_timers ui = [id] /\ debounce_timer ui = Some id) ->
            exists id, pending_timers (ui_run' (replicate (S k) Changed) ui) = [id]
                       /\ session (ui_run' (replicate (S k) Changed) ui) = session ui)
    as Hburst.
  { induction k as [|k IHk]; intros ui Hui.
    - change (ui_run' (replicate 1 Changed) ui) with (trigger_preview_update ui).
      destruct (trigger_pending ui Hui) as (-> & _ & -> & _). eauto.
    - change (replicate (S (S k)) Changed) with (Changed :: replicate (S k) Changed).
      unfold ui_run in *. cbn [foldl ui_step].
      destruct (trigger_pending ui Hui) as (Hp & Hd & Hs & _).
      destruct (IHk (trigger_preview_update ui)) as (id & Hid & Hsession); [eauto|].
      exists id. by rewrite Hid, Hsession, Hs. }
  destruct (Hburst n before Hinv) as (id & Hpending & Hsession).
  exists id. split_and!; [done|by rewrite Hsession|..].
  - unfold timer_due. rewrite Hpending, bool_decide_eq_true_2 by left.
    cbn [session]. by rewrite launcher_counter, Hsession.
  - unfold timer_due. rewrite Hpending, bool_decide_eq_true_2 by left.
    cbn [pending_timers]. unfold after_cancel. by rewrite filter_cons, decide_False by tauto.
  - intros other Hother. unfold timer_due. rewrite Hpending.
    rewrite bool_decide_eq_false_2; [done|]. by intros ->%list_elem_of_singleton.
Qed.
End WithPillow.

End DebounceFacts.

(** ** More on strings: replacement and characters that do not occur *)

Module PyStrExtra.
Import PyStr PyStrFacts.
#[local] Arguments String.append !_ _ / : simpl nomatch.

Lemma replace_go_skip (old new : string) (k : nat) (s : string) :
  replace_go old new k s = replace_go old new 0 (drop k s).
Proof.
  revert k. induction s as [|a s IH]; intros [|k]; try done.
  cbn [replace_go drop]. apply IH.
Qed.

Lemma contains_cons_false (sub : string) (a : ascii) (s : string) :
  contains sub (String a s) = false ->
  startswith (String a s) sub = false /\ contains sub s = false.
Proof. cbn [contains]. by intros [? ?]%orb_false_iff. Qed.

(** Nothing to replace: the string is returned as it is. *)
Lemma replace_absent (old new s : string) :
  contains old s = false -> replace old new s = s.
Proof.
  unfold replace. induction s as [|a s IH]; [done|].
  intros [Hs Hc]%contains_cons_false. cbn [replace_go]. rewrite Hs. by rewrite IH.
Qed.

(** Replacement cuts at the first occurrence and goes on after it. *)
Lemma replace_split_first (old new s p q : string) :
  old <> "" ->
  split_first old s = Some (p, q) ->
  replace old new s = p +:+ new +:+ replace old new q.
Proof.
  intros Hold. unfold replace. revert p. induction s as [|a s IH]; intros p.
  - cbn [split_first]. destruct old; [done|]. done.
  - cbn [split_first replace_go]. destruct (startswith (String a s) old) eqn:Hs.
    + intros [= <- <-]. rewrite replace_go_skip. simpl. f_equal. f_equal.
      destruct old as [|b old]; [done|]. cbn [String.length drop Nat.sub]. by rewrite Nat.sub_0_r.
    + destruct (split_first old s) as [[p0 q0]|]; [|done]. intros [= <- <-].
      simpl. f_equal. by apply IH.
Qed.

Lemma rfind_app (c : ascii) (p q : string) :
  rfind c p = None -> rfind c q = None -> rfind c (p +:+ q) = None.
Proof.
  intros Hp Hq. induction p as [|a p IH]; simpl in *; [done|].
  destruct (rfind c p); [done|]. rewrite IH by done. by destruct (Ascii.eqb a c).
Qed.

Lemma rfind_take_drop (c : ascii) (n : nat) (s : string) :
  rfind c s = None -> rfind c (take n s) = None /\ rfind c (drop n s) = None.
Proof. intros H. apply rfind_app_None. by rewrite take_drop. Qed.

Lemma rstrip_prefix (c : ascii) (s : string) : exists t, s = rstrip c s +:+ t.
Proof.
  induction s as [|a s [t IH]]; [by exists ""|]. cbn [rstrip].
  destruct (rstrip c s) as [|b r] eqn:Hr.
  - destruct (Ascii.eqb a c); [by exists (String a s)|]. exists s. done.
  - exists t. simpl. by rewrite IH at 1.
Qed.

Lemma rfind_map_chars (c d : ascii) (s : string) :
  d <> c -> rfind c (map_chars (fun a => if Ascii.eqb a c then d else a) s) = None.
Proof.
  intros Hne. induction s as [|a s IH]; [done|]. cbn [map_chars rfind]. rewrite IH.
  destruct (Ascii.eqb_spec a c) as [->|Ha].
  - by apply Ascii.eqb_neq in Hne as ->.
  - by apply Ascii.eqb_neq in Ha as ->.
Qed.

End PyStrExtra.

(** ** Export: references, file names, reports *)

Module ExportPipelineExtra.
Import PyStr PyStrFacts PyStrExtra PosixPath LayoutEngine ExportPipeline.

(** [X12] A texture reference always starts with "materials/" and never
    contains a backslash, whatever path it is made from. *)
Theorem texture_reference_form (absolute_path : string) :
  (exists rest, get_relative_texture_path absolute_path = "materials/" +:+ rest)
  /\ contains "\" (get_relative_texture_path absolute_path) = false.
Proof.
  split.
  { unfold get_relative_texture_path. destruct (contains _ _); eauto. }
  apply rfind_None. unfold get_relative_texture_path.
  rewrite replace_char.
  set (normalized := map_chars _ absolute_path).
  assert (rfind "\" normalized = None) as Hn by (by apply rfind_map_chars).
  destruct (contains "/materials/" normalized) eqn:Hc.
  - destruct (split_first_contains _ _ Hc) as [[p q] Hpq]. rewrite Hpq.
    apply split_first_spec in Hpq as [Heq _]. rewrite Heq in Hn.
    apply rfind_app_None in Hn as [_ Hn]. apply rfind_app_None in Hn as [_ Hn].
    by apply rfind_app.
  - assert (rfind "\" (basename normalized) = None) as Hbase.
    { unfold basename. by apply rfind_take_drop. }
    assert (rfind "\" (basename (dirname normalized)) = None) as Hparent.
    { unfold basename. apply rfind_take_drop. unfold dirname.
      assert (rfind "\" (take (after_last_sep normalized) normalized) = None) as Hhead
        by (by apply rfind_take_drop).
      destruct (negb _ && negb _); [|done].
      destruct (rstrip_prefix "/" (take (after_last_sep normalized) normalized)) as [t Ht].
      rewrite Ht in Hhead. by apply rfind_app_None in Hhead as [? _]. }
    repeat (apply rfind_app; [done|]). done.
Qed.

Section WithPillow.
Context {Font : Type}.
Variable truetype : string -> Z -> option Font.
Variable load_default : Font.
Variable textbbox : Font -> string -> string -> Z -> Z * Z * Z * Z.
Variable abspath : string -> string.
Variable write_error : string -> option string.

Abbreviation perform_save :=
  (_perform_save truetype load_default textbbox abspath write_error).
Abbreviation perform_batch :=
  (_perform_batch truetype load_default textbbox abspath write_error).
Abbreviation item := (batch_item truetype load_default textbbox abspath write_error).

(** [X13] Where the colour image goes.  When the path picked in the dialog
    ends with its first "_color.png" and has no ".png" before it, the colour
    image is written to that very path.  When the path has no "_color.png" and
    ends with its first ".png", the colour image is written next to it, under
    the name with "_color.png" in place of ".png". *)
Theorem colour_image_path (save_path prefix : string) (data : export_data Font)
    (st : App Font) (text : string) :
  d_text data = Some text ->
  write_error (prefix +:+ "_color.png") = None ->
  (split_first "_color.png" save_path = Some (prefix, "")
   /\ contains ".png" prefix = false)
  \/ (contains "_color.png" save_path = false
      /\ split_first ".png" save_path = Some (prefix, "")) ->
  head (written (fst (perform_save save_path data st))) = Some (prefix +:+ "_color.png")
  /\ (split_first "_color.png" save_path = Some (prefix, "") ->
      prefix +:+ "_color.png" = save_path).
Proof.
  intros Htext Hok Hshape.
  assert (replace ".png" "" (replace "_color.png" "" save_path) = prefix) as Hbase.
  { destruct Hshape as [[Hsplit Hpng]|[Hcolor Hsplit]].
    - rewrite (replace_split_first "_color.png" "" save_path prefix "") by done.
      change (replace "_color.png" "" "") with "". change ("" +:+ "") with "".
      rewrite app_nil_r. by apply replace_absent.
    - rewrite (replace_absent "_color.png" "" save_path) by done.
      rewrite (replace_split_first ".png" "" save_path prefix "") by done.
      change (replace ".png" "" "") with "". change ("" +:+ "") with "".
      by rewrite app_nil_r. }
  split.
  - rewrite (ExportPipelineFacts.written_perform_save truetype load_default textbbox
               abspath write_error save_path data st text Htext).
    cbv zeta. rewrite Hbase, Hok. done.
  - intros Hsplit. apply split_first_spec in Hsplit as [-> _]. done.
Qed.

(** The message of the first write of a single export that raises. *)
Lemma reported_perform_save (save_path : string) (data : export_data Font)
    (st : App Font) (text : string) :
  d_text data = Some text ->
  let P := replace ".png" "" (replace "_color.png" "" save_path) in
  let first_error :=
    match write_error (P +:+ "_color.png") with
    | Some e => Some e
    | None =>
        if d_mask data || d_vmat data then
          match write_error (P +:+ "_trans.png") with
          | Some e => Some e
          | None => if d_vmat data then write_error (P +:+ ".vmat") else None
          end
        else None
    end in
  snd (perform_save save_path data st) = inr tt
  /\ reported (fst (perform_save save_path data st))
     = match first_error with
       | Some e => [LogError "EXPORT" ("Failed to save: " +:+ e); AfterStopLoadingError]
       | None =>
           [ShowSuccess ("Saved files to " +:+ dirname P) (dirname P);
            LogSuccess "EXPORT" ("Saved files to " +:+ P)]
       end
  /\ shown (fst (perform_save save_path data st))
     = match first_error with
       | Some _ => [NameError "e"]
       | None => [SuccessDialog ("Saved files to " +:+ dirname P) (dirname P)]
       end.
Proof.
  intros Htext P first_error. subst first_error.
  unfold _perform_save, data_text, write. rewrite Htext. fold P.
  destruct (write_error (P +:+ "_color.png")); [done|].
  destruct (d_mask data), (d_vmat data); cbn [orb];
    destruct (write_error (P +:+ "_trans.png"));
    try destruct (write_error (P +:+ ".vmat")); done.
Qed.

(** The reports of a single export come after its writes. *)
Lemma perform_save_order (save_path : string) (data : export_data Font)
    (st : App Font) (text : string) :
  d_text data = Some text ->
  exists writes,
    fst (perform_save save_path data st)
    = (writes ++ reported (fst (perform_save save_path data st)))%list
    /\ reported writes = [].
Proof.
  intros Htext.
  exists (List.filter (fun eff => match eff with Write _ _ => true | _ => false end)
            (fst (perform_save save_path data st))).
  unfold _perform_save, data_text, write. rewrite Htext.
  set (P := replace ".png" "" (replace "_color.png" "" save_path)).
  destruct (write_error (P +:+ "_color.png")); [split; reflexivity|].
  destruct (d_mask data), (d_vmat data); cbn [orb];
    destruct (write_error (P +:+ "_trans.png"));
    try destruct (write_error (P +:+ ".vmat")); split; reflexivity.
Qed.


Lemma flat_map_flat_map {A B C : Type} (f : A -> list B) (g : B -> list C) (l : list A) :
  flat_map g (flat_map f l) = flat_map (fun x => flat_map g (f x)) l.
Proof.
  induction l as [|x l IH]; [done|]. cbn [flat_map]. by rewrite flat_map_app, IH.
Qed.

Lemma passes_draw_text (text : string) (size font_size : Z) (font_obj : Font)
    (alignment position : string) (padding line_spacing : Z) (st : App Font) :
  map dt_text
    (im_draws (fst (create_text_image_pil truetype load_default textbbox text size
                      font_size (Some font_obj) alignment position padding line_spacing st)))
  = [text]
  /\ map dt_text
       (im_draws (create_mask_image textbbox text size font_obj alignment position padding
                    line_spacing st)) = [text].
Proof.
  unfold create_text_image_pil, create_mask_image.
  destruct (textbbox font_obj text (lower alignment) line_spacing) as [[[l t] r] b].
  by destruct (outline_enabled st).
Qed.

(** One digit of the batch when no write raises. *)
Lemma batch_item_ok (directory : string) (data : export_data Font) (st : App Font)
    (i : nat) :
  (forall path, write_error path = None) ->
  let base := join directory (str_nat i) in
  snd (item directory data st i) = inr tt
  /\ written (fst (item directory data st i))
     = ((base +:+ "_color.png")
        :: (if d_mask data || d_vmat data then [base +:+ "_trans.png"] else [])
        ++ (if d_vmat data then [base +:+ ".vmat"] else []))%list
  /\ rendered_texts (fst (item directory data st i))
     = str_nat i :: (if d_mask data || d_vmat data then [str_nat i] else [])
  /\ reported (fst (item directory data st i))
     = [LogInfo "BATCH" ("Generated number: " +:+ str_nat i)].
Proof.
  intros Hok base.
  destruct (passes_draw_text (str_nat i) (d_size data) (d_font_size data) (d_font_obj data)
              (d_alignment data) (d_position data) (d_padding data) (d_line_spacing data)
              st) as [Hcolour Hmask].
  unfold batch_item, write. fold base. rewrite !Hok.
  destruct (d_mask data), (d_vmat data); cbn [orb];
    cbn [bind tell ret fst snd app written reported rendered_texts flat_map];
    rewrite ?Hcolour, ?Hmask; done.
Qed.

(** [X15] When no write raises, the batch writes the files of the digits 0 to
    9 in order, each under the directory and named by its digit (the colour
    image, then the mask if a mask or a material is requested, then the
    material if requested); every image is drawn with its digit as the text;
    and the log has one line per digit, between the title and the single
    success report. *)
Theorem batch_writes_every_digit (directory : string) (data : export_data Font)
    (st : App Font) :
  (forall path, write_error path = None) ->
  let trace := fst (perform_batch directory data st) in
  written trace
  = flat_map (fun i =>
                let base := join directory (str_nat i) in
                (base +:+ "_color.png")
                :: (if d_mask data || d_vmat data then [base +:+ "_trans.png"] else [])
                ++ (if d_vmat data then [base +:+ ".vmat"] else []))%list
      (seq 0 10)
  /\ rendered_texts trace
     = flat_map (fun i => str_nat i :: (if d_mask data || d_vmat data then [str_nat i] else []))
         (seq 0 10)
  /\ reported trace
     = (LogSection "BATCH EXPORT"
        :: flat_map (fun i => [LogInfo "BATCH" ("Generated number: " +:+ str_nat i)])
             (seq 0 10)
        ++ [ShowSuccess ("Batch complete in " +:+ directory) directory;
            LogSuccess "BATCH" ("Batch generation complete in " +:+ directory)])%list.
Proof.
  intros Hok. cbv zeta. unfold _perform_batch.
  rewrite ExportPipelineFacts.for_each_ok by (intros i _; by apply batch_item_ok).
  cbn [bind try_except tell fst snd app].
  unfold written, reported, rendered_texts. cbn [flat_map].
  rewrite !flat_map_app, !flat_map_flat_map. cbn [flat_map app].
  rewrite !(right_id_L [] (++)%list).
  split_and!; [| |f_equal; f_equal]; apply flat_map_ext; intros i;
    by destruct (batch_item_ok directory data st i Hok) as (_ & ? & ? & ?).
Qed.
End WithPillow.

Lemma colour_image_path_witness :
  head (written
          (fst (_perform_save Demo.truetype Demo.Default Demo.textbbox Demo.abspath
                  Demo.write_error "/out/sign.png"
                  (mkData 512 (Some "Hi") 50 Demo.Default "Center" "Center" 20 4 false false
                     "csgo_static_overlay.vfx")
                  initial_app)))
  = Some "/out/sign_color.png".
Proof.
  apply (colour_image_path Demo.truetype Demo.Default Demo.textbbox Demo.abspath
           Demo.write_error "/out/sign.png" "/out/sign" _ initial_app "Hi").
  - reflexivity.
  - reflexivity.
  - right. split; reflexivity.
Defined.


Lemma batch_writes_every_digit_witness :
  written
    (fst (_perform_batch Demo.truetype Demo.Default Demo.textbbox Demo.abspath
            (fun _ => None) "/out"
            (mkData 512 None 512 Demo.Default "Center" "Center" 20 4 false false
               "csgo_static_overlay.vfx")
            initial_app))
  = ["/out/0_color.png"; "/out/1_color.png"; "/out/2_color.png"; "/out/3_color.png";
     "/out/4_color.png"; "/out/5_color.png"; "/out/6_color.png"; "/out/7_color.png";
     "/out/8_color.png"; "/out/9_color.png"].
Proof.
  rewrite (proj1 (batch_writes_every_digit Demo.truetype Demo.Default Demo.textbbox
                    Demo.abspath (fun _ => None) "/out"
                    (mkData 512 None 512 Demo.Default "Center" "Center" 20 4 false false
                       "csgo_static_overlay.vfx")
                    initial_app (fun _ => eq_refl))).
  reflexivity.
Defined.

End ExportPipelineExtra.

(** ** Font catalog: bad cache files, what gets catalogued *)

Module FontCatalogExtra.
Import PyStr PyStrFacts FontCatalog FontCatalogFacts.

Lemma obj_get_snoc (key : string) (members : list (string * json)) (kv : string * json) :
  obj_get key (members ++ [kv])
  = if String.eqb (fst kv) key then Some (snd kv) else obj_get key members.
Proof. unfold obj_get. by rewrite foldl_snoc. Qed.

Lemma obj_get_None (key : string) (members : list (string * json)) :
  key ∉ members.*1 -> obj_get key members = None.
Proof.
  induction members as [|kv members IH] using rev_ind; [done|].
  rewrite fmap_app, not_elem_of_app. intros [Hrest Hlast].
  rewrite obj_get_snoc, (IH Hrest).
  destruct (String.eqb_spec (fst kv) key) as [<-|]; [|done].
  destruct Hlast. cbn. left.
Qed.

(** [X16] A cache file that is absent, cannot be read or parsed, is no JSON
    object, is an object without the key "names" or without the key "paths",
    or has a "names" value without a length is ignored: the thread scans the
    font directories and keeps the scanned catalog however the writing of the
    new cache file ends.  If the file cannot be opened for writing it stays
    as it was; if writing fails once it is open, what is left of it cannot be
    loaded, so the next start scans again; and a cache file that was written
    loads as the scanned catalog. *)
Theorem unusable_cache_is_rebuilt (walk : string -> option (list (string * list string)))
    (font_dirs : list string) (outcome : save_outcome) (f : cache_file) :
  f = Absent \/ f = Unreadable
  \/ (exists j, f = Document j
                /\ forall members, j = JObj members ->
                     "names" ∉ members.*1 \/ "paths" ∉ members.*1)
  \/ (exists members names paths,
        f = Document (JObj members)
        /\ obj_get "names" members = Some names
        /\ obj_get "paths" members = Some paths
        /\ has_len names = false) ->
  let result := _scan_fonts_thread walk font_dirs outcome f in
  fst result = Catalog (scan walk font_dirs)
  /\ (outcome = OpenRaises -> snd result = f)
  /\ (outcome = DumpRaises ->
      snd result = Unreadable
      /\ forall walk' font_dirs' outcome',
           fst (_scan_fonts_thread walk' font_dirs' outcome' (snd result))
           = Catalog (scan walk' font_dirs'))
  /\ (outcome = Saved ->
      load (snd result)
      = CacheHit (fst (scan walk font_dirs)) (snd (scan walk font_dirs))).
Proof.
  intros Hbad.
  assert (load f = CacheMiss) as Hmiss.
  { destruct Hbad as [->|[->|[(j & -> & Hkeys)|(members & jn & jp & -> & Hn & Hp & Hlen)]]];
      [done..| |].
    - destruct j as [| | | |items|members]; try done. cbn [load].
      destruct (Hkeys members eq_refl) as [Hn|Hp].
      + by rewrite (obj_get_None "names" members Hn).
      + rewrite (obj_get_None "paths" members Hp). by destruct (obj_get "names" members).
    - cbn [load]. rewrite Hn, Hp, Hlen. by destruct jn. }
  assert (_scan_fonts_thread walk font_dirs outcome f
          = (Catalog (scan walk font_dirs),
             save outcome (fst (scan walk font_dirs)) (snd (scan walk font_dirs)) f))
    as ->.
  { unfold _scan_fonts_thread. rewrite Hmiss. by destruct (scan walk font_dirs). }
  cbv zeta. cbn [fst snd].
  split_and!; [done|by intros ->| |].
  - intros ->. split; [done|]. intros walk' font_dirs' outcome'.
    unfold _scan_fonts_thread. cbn [save load].
    by destruct (scan walk' font_dirs').
  - intros ->. apply load_dump.
Qed.

(** [X17] Everything in the scanned catalog comes from a font file: a name in
    the mapping is never empty, and its path joins a directory that was walked
    with a file in it whose extension is ".ttf" or ".otf" (in any case) and
    whose cleaned name it is. *)
Theorem catalogued_paths_are_font_files
    (walk : string -> option (list (string * list string))) (font_dirs : list string)
    (name path : string) :
  snd (scan walk font_dirs) !! name = Some path ->
  name <> ""
  /\ exists root file,
       (root, file) ∈ visited_fonts walk font_dirs
       /\ is_font_file file = true
       /\ cleaned_name file = name
       /\ path = PosixPath.join root file.
Proof.
  rewrite scan_eq. cbn [snd].
  pose proof (visited_fonts_are_fonts walk font_dirs) as Hfonts.
  rewrite (scan_lookup _ _ name Hfonts). cbn [fst].
  rewrite lookup_empty, (left_id_L None (∪)).
  destruct (decide (name = "")) as [->|Hne]; [done|].
  destruct (list_find _ _) as [[i [root file]]|] eqn:Hfind; [|done].
  intros [= <-]. split; [done|]. exists root, file.
  apply list_find_Some in Hfind as (Hi & Hname & _).
  apply list_elem_of_lookup_2 in Hi. split_and!; [done| |done|done].
  eapply Forall_forall in Hfonts; [|exact Hi]. done.
Qed.

(** [X18] Cleaning only ever removes one entry of the suffix list from the end
    of a name: the cleaned name followed by nothing, or by one style suffix,
    is the name. *)
Theorem clean_font_name_is_prefix (font_name : string) :
  exists suffix,
    font_name = clean_font_name font_name +:+ suffix
    /\ (suffix = "" \/ suffix ∈ style_suffixes).
Proof.
  unfold clean_font_name.
  assert (forall suffixes, (forall s, s ∈ suffixes -> s <> "") ->
            exists suffix,
              font_name = strip_first_suffix suffixes font_name +:+ suffix
              /\ (suffix = "" \/ suffix ∈ suffixes)) as Hgen.
  { induction suffixes as [|s rest IH]; intros Hne.
    - exists "". by rewrite app_nil_r; auto.
    - cbn [strip_first_suffix]. destruct (endswith font_name s) eqn:He.
      + apply endswith_spec in He as [p ->]. exists s. split; [|right; left].
        unfold drop_last. destruct s as [|a s]; [by destruct (Hne ""); [left|]|].
        change (String.length (String a s) =? 0)%nat with false. cbv iota.
        by rewrite endswith_take.
      + destruct IH as (suffix & Heq & Hin); [intros s' Hs'; apply Hne; by right|].
        exists suffix. split; [done|]. destruct Hin; [by left|right; by right]. }
  apply Hgen. apply style_suffix_nonempty.
Qed.

Lemma unusable_cache_is_rebuilt_witness :
  let result :=
    _scan_fonts_thread Demo.walk_distinct Demo.font_dirs DumpRaises
      (Document (JObj [("names", JNull); ("paths", JObj [])])) in
  fst result = Catalog (scan Demo.walk_distinct Demo.font_dirs)
  /\ snd result = Unreadable.
Proof.
  destruct (unusable_cache_is_rebuilt Demo.walk_distinct Demo.font_dirs DumpRaises
              (Document (JObj [("names", JNull); ("paths", JObj [])])))
    as (Hcatalog & _ & Hdump & _).
  - right. right. right. eexists _, _, _. split_and!; reflexivity.
  - split; [exact Hcatalog|]. exact (proj1 (Hdump eq_refl)).
Defined.

Lemma catalogued_paths_are_font_files_witness :
  exists root file,
    (root, file) ∈ visited_fonts Demo.walk_distinct Demo.font_dirs
    /\ is_font_file file = true
    /\ cleaned_name file = "Lato"
    /\ "/usr/share/fonts/lato/Lato-Bold.TTF" = PosixPath.join root file.
Proof.
  apply (catalogued_paths_are_font_files Demo.walk_distinct Demo.font_dirs "Lato").
  reflexivity.
Defined.

End FontCatalogExtra.

(** ** The checkerboard *)

Module CheckerboardFacts.
Import Checkerboard.
Local Open Scope Z_scope.

Lemma range_up_elem (fuel : nat) (start stop step x : Z) :
  0 < step -> stop - start <= Z.of_nat fuel ->
  x ∈ range_up fuel start stop step
  <-> exists k, 0 <= k /\ x = start + k * step /\ x < stop.
Proof.
  intros Hstep. revert start. induction fuel as [|fuel IH]; intros start Hfuel.
  - cbn [range_up]. rewrite elem_of_nil. split; [done|]. intros (k & Hk & -> & Hlt). nia.
  - cbn [range_up]. destruct (start <? stop) eqn:Hlt.
    + apply Z.ltb_lt in Hlt. rewrite elem_of_cons, IH by lia. split.
      * intros [->|(k & Hk & -> & Hx)]; [exists 0; lia|]. exists (k + 1). lia.
      * intros (k & Hk & -> & Hx). destruct (decide (k = 0)) as [->|Hne]; [left; lia|].
        right. exists (k - 1). lia.
    + apply Z.ltb_ge in Hlt. rewrite elem_of_nil. split; [done|].
      intros (k & Hk & -> & Hx). nia.
Qed.

Lemma draw_cells_elem (cells : list Z) (square_size : Z) (r : Z * Z * Z * Z) :
  r ∈ draw_cells cells square_size
  <-> exists i j, i ∈ cells /\ j ∈ cells
                  /\ (i / square_size + j / square_size) mod 2 = 0
                  /\ r = (i, j, i + square_size, j + square_size).
Proof.
  unfold draw_cells. rewrite list_elem_of_In, in_flat_map. split.
  - intros (i & Hi & Hr). apply in_flat_map in Hr as (j & Hj & Hr).
    exists i, j. rewrite <- !list_elem_of_In in *.
    destruct (_ =? 0) eqn:Hpar; [|by apply elem_of_nil in Hr].
    apply list_elem_of_singleton in Hr. apply Z.eqb_eq in Hpar. done.
  - intros (i & j & Hi & Hj & Hpar & ->). exists i. rewrite <- list_elem_of_In.
    split; [done|]. apply in_flat_map. exists j. rewrite <- !list_elem_of_In.
    split; [done|]. apply Z.eqb_eq in Hpar. rewrite Hpar. left.
Qed.

(** [X19] A board that is not cached yet is made of the cells of every second
    square of the grid: with a positive square size, its rectangles are exactly
    the squares [[a*s, b*s, a*s + s, b*s + s]] that start inside the canvas and
    have [a + b] even; the board is stored under its size. *)
Theorem checkerboard_pattern (size square_size : Z) (cache : gmap Z board) :
  cache !! size = None -> 0 <= size -> 0 < square_size ->
  exists img,
    get_cached_checkerboard size square_size cache = Some (img, <[size := img]> cache)
    /\ board_size img = size
    /\ forall r, r ∈ rectangles img
         <-> exists a b, 0 <= a /\ 0 <= b
                         /\ a * square_size < size /\ b * square_size < size
                         /\ (a + b) mod 2 = 0
                         /\ r = (a * square_size, b * square_size,
                                 a * square_size + square_size,
                                 b * square_size + square_size).
Proof.
  intros Hmiss Hsize Hsq. unfold get_cached_checkerboard, range. rewrite Hmiss.
  destruct (size <? 0) eqn:Hneg; [apply Z.ltb_lt in Hneg; lia|].
  destruct (square_size =? 0) eqn:Hz; [apply Z.eqb_eq in Hz; lia|].
  destruct (0 <? square_size) eqn:Hp; [|apply Z.ltb_ge in Hp; lia].
  eexists. split; [reflexivity|]. split; [done|]. cbn [rectangles].
  intros r. rewrite draw_cells_elem. split.
  - intros (i & j & Hi & Hj & Hpar & ->).
    apply range_up_elem in Hi as (a & Ha & -> & Hia); [|lia..].
    apply range_up_elem in Hj as (b & Hb & -> & Hjb); [|lia..].
    exists a, b. rewrite !Z.add_0_l, !Z.div_mul in Hpar by lia.
    rewrite !Z.add_0_l in *. done.
  - intros (a & b & Ha & Hb & Hia & Hjb & Hpar & ->).
    exists (a * square_size), (b * square_size). split_and!; [| | |done].
    + apply range_up_elem; [lia..|]. exists a. lia.
    + apply range_up_elem; [lia..|]. exists b. lia.
    + by rewrite !Z.div_mul by lia.
Qed.

(** [X20] The boards are cached by size alone.  Once a board has been made for
    a size, every later request for that size returns that board and leaves
    the cache alone, whatever square size it asks for; without a cached board,
    a negative size or a square size of 0 raises and nothing is cached. *)
Theorem checkerboard_cached_by_size (size square_size : Z) (cache cache' : gmap Z board)
    (img : board) :
  get_cached_checkerboard size square_size cache = Some (img, cache') ->
  (forall other, get_cached_checkerboard size other cache' = Some (img, cache'))
  /\ (forall other_size, other_size <> size -> cache' !! other_size = cache !! other_size)
  /\ (cache !! size = None -> 0 <= size /\ square_size <> 0).
Proof.
  unfold get_cached_checkerboard, range.
  destruct (cache !! size) as [cached|] eqn:Hc.
  - intros [= <- <-]. split_and!; [|done..]. intros other. by rewrite Hc.
  - destruct (size <? 0) eqn:Hneg; [done|]. apply Z.ltb_ge in Hneg.
    destruct (square_size =? 0) eqn:Hz; [done|]. apply Z.eqb_neq in Hz.
    destruct (0 <? square_size); intros [= <- <-]; split_and!; try done;
      try (intros other; by rewrite lookup_insert_eq);
      intros other Hne; by rewrite lookup_insert_ne.
Qed.

Lemma checkerboard_pattern_witness :
  exists img,
    get_cached_checkerboard 40 20 ∅ = Some (img, <[40 := img]> ∅)
    /\ rectangles img = [(0, 0, 20, 20); (20, 20, 40, 40)].
Proof.
  destruct (checkerboard_pattern 40 20 ∅) as (img & Hget & _); [reflexivity|lia|lia|].
  exists img. split; [exact Hget|].
  vm_compute in Hget. by injection Hget as <-.
Defined.

Lemma checkerboard_cached_by_size_witness :
  get_cached_checkerboard 40 0 (<[40 := mkBoard 40 (draw_cells [0; 20] 20)]> ∅)
  = Some (mkBoard 40 (draw_cells [0; 20] 20), <[40 := mkBoard 40 (draw_cells [0; 20] 20)]> ∅).
Proof.
  assert (get_cached_checkerboard 40 20 ∅
          = Some (mkBoard 40 (draw_cells [0; 20] 20),
                  <[40 := mkBoard 40 (draw_cells [0; 20] 20)]> ∅)) as Hfirst
    by (vm_compute; reflexivity).
  apply (proj1 (checkerboard_cached_by_size 40 20 ∅ _ _ Hfirst)).
Defined.

End CheckerboardFacts.
